(** * Kummatty RAG pipeline: document ingestion and the chat route

    A shallow embedding of [src/lib/ingestion.ts] (the cloud pipeline,
    Gemini embeddings), [src/lib/ingestion_xenova.ts] (the local pipeline,
    Xenova embeddings) and of the chat route handler, together with the
    properties of the ingestion and chat specification that they decide.

    The asynchronous functions of the source are sequential await chains;
    they are embedded in a state-and-exception monad over a [World] that
    holds the Chroma collection, the requests received by
    [collection.upsert], the console output and the module-level
    [extractor] variable of the local pipeline.  Everything the source
    imports from a package (the Chroma client, the PDF parsers, the
    LangChain splitter, the embedding runtimes, [fs] and [path]) is a field
    of an environment record. *)

From Stdlib Require Import Ascii Floats.
From stdpp Require Import gmap strings pretty list fin_maps.

Set Warnings "-clear-no-such-hyp".

(** ** Strings of the JavaScript runtime *)

Definition LF : string := String "010"%char EmptyString.

(** [Array.prototype.join]. *)
Fixpoint join (sep : string) (l : list string) : string :=
  match l with
  | [] => EmptyString
  | [s] => s
  | s :: rest => s +:+ sep +:+ join sep rest
  end.

(** [String.prototype.endsWith]: the last [length suffix] characters of
    [s] are exactly [suffix]. *)
Definition endsWith (s suffix : string) : bool :=
  let n := String.length s in
  let k := String.length suffix in
  bool_decide (k ≤ n) && bool_decide (String.substring (n - k) k s = suffix).

(** [String.prototype.toLowerCase], on the letters of ASCII. *)
Definition lowerAscii (a : ascii) : ascii :=
  let n := nat_of_ascii a in
  if bool_decide (65 ≤ n ≤ 90) then ascii_of_nat (n + 32) else a.

Fixpoint toLowerCase (s : string) : string :=
  match s with
  | EmptyString => EmptyString
  | String a s' => String (lowerAscii a) (toLowerCase s')
  end.

(** The rendering of an array index or length inside a template literal. *)
Definition show (n : nat) : string := pretty n.

(** The template literal [`${fileName}-${i}`]. *)
Definition rowId (fileName : string) (i : nat) : string :=
  fileName +:+ "-" +:+ show i.

(** The string holds no dash. *)
Fixpoint dashFree (s : string) : Prop :=
  match s with
  | EmptyString => True
  | String a s' => a ≠ "-"%char ∧ dashFree s'
  end.

(** ** Outcomes, the world and the effect monad *)

(** A call either returns or throws an [Error]; the error is identified
    with its [message]. *)
Inductive Outcome (A : Type) : Type :=
| Returns (a : A)
| Throws (message : string).
Arguments Returns {A} a.
Arguments Throws {A} message.

Inductive ConsoleEvent : Type :=
| ConsoleLog (line : string)
| ConsoleWarn (line : string)
| ConsoleError (line : string).

(** The lines printed with [console.warn]. *)
Definition warnings (events : list ConsoleEvent) : list string :=
  omap (λ ev, match ev with ConsoleWarn line => Some line | _ => None end) events.

(** [number[]]. *)
Definition vector : Type := list float.

Record Metadata : Type := { source : string; chunk_index : nat }.

(** The argument of [collection.upsert]. *)
Record UpsertRequest : Type := {
  ids : list string;
  embeddings : list vector;
  documents : list string;
  metadatas : list Metadata
}.

(** A row of the collection.  A field is [None] where the array of the
    request had no element at the row's index. *)
Record Row : Type := {
  row_embedding : option vector;
  row_document : option string;
  row_metadata : option Metadata
}.

(** What the pipelines act on: the rows of the collection, the requests
    [collection.upsert] has received (oldest first), the console output
    (oldest first), and whether the module-level variable [extractor] of
    the local pipeline holds an initialized pipeline. *)
Record World : Type := {
  collection : gmap string Row;
  upserts : list UpsertRequest;
  console : list ConsoleEvent;
  extractor : bool
}.

Definition IO (A : Type) : Type := World → Outcome A * World.

Global Instance IO_ret : MRet IO := λ A a w, (Returns a, w).

Global Instance IO_bind : MBind IO := λ A B f m w,
  match m w with
  | (Returns a, w') => f a w'
  | (Throws e, w') => (Throws e, w')
  end.

Definition throw {A : Type} (message : string) : IO A :=
  λ w, (Throws message, w).

(** [try { body } catch (e) { handler(e.message) }]. *)
Definition try_catch {A : Type} (body : IO A) (handler : string → IO A) : IO A :=
  λ w, match body w with
       | (Returns a, w') => (Returns a, w')
       | (Throws e, w') => handler e w'
       end.

(** [try { body } finally { cleanup }], for a [cleanup] that cannot throw. *)
Definition try_finally {A : Type} (body : IO A) (cleanup : World → World) : IO A :=
  λ w, let '(r, w') := body w in (r, cleanup w').

(** Awaiting a collaborator whose outcome the environment fixes. *)
Definition await {A : Type} (o : Outcome A) : IO A := λ w, (o, w).

Definition emit (ev : ConsoleEvent) : IO unit :=
  λ w, (Returns (),
        {| collection := collection w; upserts := upserts w;
           console := console w ++ [ev]; extractor := extractor w |}).

Definition console_log (line : string) : IO unit := emit (ConsoleLog line).
Definition console_warn (line : string) : IO unit := emit (ConsoleWarn line).
Definition console_error (line : string) : IO unit := emit (ConsoleError line).

(** ** The vector store

    [chromadb-client] is an external collaborator.  A collection is a
    finite map from row id to row. *)

(** The row a request holds at position [i] of its arrays. *)
Definition row_at (req : UpsertRequest) (i : nat) : Row :=
  {| row_embedding := embeddings req !! i;
     row_document := documents req !! i;
     row_metadata := metadatas req !! i |}.

Fixpoint write_rows (req : UpsertRequest) (i : nat) (keys : list string)
    (c : gmap string Row) : gmap string Row :=
  match keys with
  | [] => c
  | k :: keys' => write_rows req (S i) keys' (<[k := row_at req i]> c)
  end.

(** Modelled from the spec: the effect of an accepted [collection.upsert]
    of [chromadb-client], which is not part of the repository.  The
    specification gives it overwrite semantics keyed by id: for every
    position [i] of [ids], the row stored under [ids[i]] is replaced by the
    elements at position [i] of the three other arrays. *)
Definition apply_upsert (req : UpsertRequest) (c : gmap string Row) : gmap string Row :=
  write_rows req 0 (ids req) c.

(** [await collection.upsert(req)]: the request is received by the store,
    which either rejects it ([rejects req = Some message], the call throws)
    or applies it. *)
Definition collection_upsert (rejects : UpsertRequest → option string)
    (req : UpsertRequest) : IO unit :=
  λ w,
    match rejects req with
    | Some message =>
        (Throws message,
         {| collection := collection w; upserts := upserts w ++ [req];
            console := console w; extractor := extractor w |})
    | None =>
        (Returns (),
         {| collection := apply_upsert req (collection w);
            upserts := upserts w ++ [req];
            console := console w; extractor := extractor w |})
    end.

(** The value both pipelines resolve to. *)
Record IngestResult : Type := {
  success : bool;
  count : nat;
  error : option string
}.

(** The options both pipelines construct the LangChain splitter with. *)
Record SplitterOptions : Type := {
  chunkSize : nat;
  chunkOverlap : nat;
  separators : list string
}.

Definition splitterOptions : SplitterOptions :=
  {| chunkSize := 1000;
     chunkOverlap := 200;
     separators := [LF +:+ LF; LF; " "; EmptyString] |}.

(** The loop [for (let i = 0; i < chunks.length; i++)] that pushes one id
    and one metadata record per chunk: [i] is the loop counter and
    [remaining] is [chunks.length - i]. *)
Fixpoint pushLoop (fileName : string) (i remaining : nat)
    (ids : list string) (metadatas : list Metadata) : list string * list Metadata :=
  match remaining with
  | 0 => (ids, metadatas)
  | S remaining' =>
      pushLoop fileName (S i) remaining'
        (ids ++ [rowId fileName i])
        (metadatas ++ [{| source := fileName; chunk_index := i |}])
  end.

Definition upsertRequest (fileName : string) (chunks : list string)
    (embeddings : list vector) : UpsertRequest :=
  let '(ids, metadatas) := pushLoop fileName 0 (length chunks) [] [] in
  {| ids := ids;
     embeddings := embeddings;
     documents := chunks;
     metadatas := metadatas |}.

(** ** The cloud pipeline: [src/lib/ingestion.ts]

    The module throws while it is loaded when [GEMINI_API_KEY] is not set;
    what follows is the module once loaded. *)

Module Ingestion.

(** The data [pdf2json] hands to the [pdfParser_dataReady] listener. *)
Record TextRun : Type := { T : string }.
Record TextBlock : Type := { R : list TextRun }.
Record Page : Type := { Texts : list TextBlock }.
Record PdfData : Type := { Pages : list Page }.

(** The event that settles the promise of [extractTextFromPdf]: the
    source listens to these two.  A load that emits neither, or a
    [pdfParser_dataReady] listener that throws (as [decodeURIComponent]
    does on a malformed escape), leaves the promise pending: such a run
    never resolves, and the embedding does not cover it.  The properties
    speak of the runs that resolve. *)
Inductive PdfEvent : Type :=
| pdfParser_dataReady (pdfData : PdfData)
| pdfParser_dataError (parserError : string).

(** The request and the response of [ai.models.embedContent]. *)
Record Part : Type := { text : string }.
Record Content : Type := { parts : list Part }.
Record ContentEmbedding : Type := { values : vector }.
Record EmbedContentResponse : Type := {
  response_embeddings : option (list ContentEmbedding)
}.

Record Env : Type := {
  DOCUMENTS_DIR : string;
  CHROMA_HOST : string;
  (** [chromaClient.getOrCreateCollection({ name })] *)
  chroma_getOrCreateCollection : string → Outcome unit;
  (** whether the store rejects a request *)
  chroma_rejects : UpsertRequest → option string;
  (** [fs.readdirSync] *)
  readdirSync : string → Outcome (list string);
  (** [path.join] *)
  path_join : string → string → string;
  (** [new PDFParser(null, 1).loadPDF(filePath)] *)
  loadPDF : string → PdfEvent;
  decodeURIComponent : string → string;
  (** [new RecursiveCharacterTextSplitter(options).splitText(text)] *)
  splitText : SplitterOptions → string → list string;
  (** [ai.models.embedContent({ model, contents })] *)
  embedContent : string → list Content → Outcome EmbedContentResponse
}.

Definition COLLECTION_NAME : string := "kummatty_policies".
Definition EMBEDDING_MODEL : string := "models/embedding-001".

Section WithEnv.
Context (env : Env).

Definition getOrCreateCollection : IO unit :=
  console_log ("Attempting to connect to Chroma at: " +:+ CHROMA_HOST env);;
  try_catch
    (await (chroma_getOrCreateCollection env COLLECTION_NAME);;
     console_log ("Successfully connected and retrieved/created collection: "
                  +:+ COLLECTION_NAME))
    (λ error,
       console_error ("Error connecting to ChromaDB: " +:+ error);;
       throw ("Failed to connect to ChromaDB. Ensure the service is running at "
              +:+ CHROMA_HOST env)).

Definition pageText (page : Page) : string :=
  join " " (map (λ textRun, decodeURIComponent env (T textRun))
                (concat (map R (Texts page)))).

(** The [pdfParser_dataReady] listener: [fullText] after
    [pdfData.Pages.forEach]. *)
Definition fullTextOf (pdfData : PdfData) : string :=
  foldl (λ fullText page, fullText +:+ pageText page +:+ LF +:+ LF)
        EmptyString (Pages pdfData).

Definition extractTextFromPdf (filePath : string) : IO string :=
  match loadPDF env filePath with
  | pdfParser_dataReady pdfData => mret (fullTextOf pdfData)
  | pdfParser_dataError parserError =>
      throw ("PDF parsing error: " +:+ parserError)
  end.

Definition chunkText (text : string) : IO (list string) :=
  let chunks := splitText env splitterOptions text in
  console_log ("Split document into " +:+ show (length chunks) +:+ " chunks.");;
  mret chunks.

(** [chunks.map(text => ({ parts: [{ text }] }))]. *)
Definition contentsOf (chunks : list string) : list Content :=
  map (λ text, {| parts := [{| text := text |}] |}) chunks.

Definition generateEmbeddings (chunks : list string) : IO (list vector) :=
  console_log ("Generating embeddings for " +:+ show (length chunks)
               +:+ " chunks using " +:+ EMBEDDING_MODEL +:+ "...");;
  response ← await (embedContent env EMBEDDING_MODEL (contentsOf chunks));
  match response_embeddings response with
  | None | Some [] =>
      console_error "Embedding API Response:";;
      throw "Failed to generate embeddings. The API response did not contain the expected 'embeddings' data."
  | Some response_embeddings =>
      let embeddings := map values response_embeddings in
      console_log "Embeddings generated successfully.";;
      mret embeddings
  end.

(** One iteration of [for (const fileName of files)]: the result is
    the value of [chunkCount] when the iteration ends. *)
Definition ingestFile (fileName : string) (chunkCount : nat) : IO nat :=
  let filePath := path_join env (DOCUMENTS_DIR env) fileName in
  console_log (LF +:+ "--- Processing file: " +:+ fileName +:+ " ---");;
  fullText ← extractTextFromPdf filePath;
  chunks ← chunkText fullText;
  embeddings ← generateEmbeddings chunks;
  collection_upsert (chroma_rejects env)
    (upsertRequest fileName chunks embeddings);;
  let chunkCount := chunkCount + length chunks in
  console_log ("File " +:+ fileName
               +:+ " successfully ingested. Total chunks added/updated: "
               +:+ show chunkCount);;
  mret chunkCount.

Fixpoint ingestLoop (files : list string) (chunkCount : nat) : IO nat :=
  match files with
  | [] => mret chunkCount
  | fileName :: files' =>
      chunkCount ← ingestFile fileName chunkCount;
      ingestLoop files' chunkCount
  end.

Definition ingestDocuments : IO IngestResult :=
  try_catch
    (getOrCreateCollection;;
     listing ← await (readdirSync env (DOCUMENTS_DIR env));
     let files := filter (λ file, endsWith file ".pdf" = true) listing in
     if decide (length files = 0) then
       mret {| success := false; count := 0;
               error := Some ("No PDF files found in the directory: "
                              +:+ DOCUMENTS_DIR env) |}
     else
       chunkCount ← ingestLoop files 0;
       mret {| success := true; count := chunkCount; error := None |})
    (λ message,
       console_error ("INGESTION FAILED: " +:+ message);;
       mret {| success := false; count := 0; error := Some message |}).

(** The chunks of a document, when [loadPDF] delivers its data. *)
Definition documentChunks (fileName : string) : option (list string) :=
  match loadPDF env (path_join env (DOCUMENTS_DIR env) fileName) with
  | pdfParser_dataReady pdfData =>
      Some (splitText env splitterOptions (fullTextOf pdfData))
  | pdfParser_dataError _ => None
  end.

(** The documents of [files] with their chunks. *)
Definition planned (files : list string) : list (string * list string) :=
  omap (λ fileName, pair fileName <$> documentChunks fileName) files.

(** [req] is the request the pipeline builds for the document
    [fileName]: its chunks, with the embeddings of a non-empty
    response of the embedding service. *)
Definition requestOf (fileName : string) (req : UpsertRequest) : Prop :=
  ∃ chunks es,
    documentChunks fileName = Some chunks ∧
    embedContent env EMBEDDING_MODEL (contentsOf chunks)
    = Returns {| response_embeddings := Some es |} ∧
    es ≠ [] ∧
    req = upsertRequest fileName chunks (map values es).

End WithEnv.

(** Two environments hold the same documents: they list, extract and
    split alike (their embedding services may differ). *)
Definition sameDocuments (env1 env2 : Env) : Prop :=
  DOCUMENTS_DIR env1 = DOCUMENTS_DIR env2 ∧
  readdirSync env1 = readdirSync env2 ∧
  path_join env1 = path_join env2 ∧
  loadPDF env1 = loadPDF env2 ∧
  decodeURIComponent env1 = decodeURIComponent env2 ∧
  splitText env1 = splitText env2.

End Ingestion.

(** ** The local pipeline: [src/lib/ingestion_xenova.ts] *)

Module IngestionXenova.

Definition Buffer : Type := list Byte.byte.

(** The value [pdf-parse] resolves to. *)
Record PdfParseResult : Type := { text : string; numpages : nat }.

(** What [require('pdf-parse')] does when the module is loaded. *)
Inductive RequireResult : Type :=
| RequireThrows
| RequireNotFunction
| RequireFunction (parse : Buffer → Outcome PdfParseResult).

(** One row of the tensor the feature-extraction pipeline returns. *)
Record TensorRow : Type := { data : vector }.

Record Env : Type := {
  DOCUMENTS_DIR : string;
  CHROMA_HOST : string;
  chroma_getOrCreateCollection : string → Outcome unit;
  chroma_rejects : UpsertRequest → option string;
  (** [fs.readdir], [fs.readFile] *)
  readdir : string → Outcome (list string);
  readFile : string → Outcome Buffer;
  (** [path.join], [path.basename] *)
  path_join : string → string → string;
  path_basename : string → string;
  require_pdf_parse : RequireResult;
  (** [String.prototype.trim] *)
  trim : string → string;
  splitText : SplitterOptions → string → list string;
  (** [pipeline('feature-extraction', model)] *)
  pipeline : string → Outcome unit;
  (** [extractor(allChunks, { pooling: 'mean', normalize: true })] *)
  featureExtraction : list string → Outcome (list TensorRow)
}.

Definition COLLECTION_NAME : string := "kummatty_policies_xenova".
Definition XENOVA_EMBEDDING_MODEL : string := "Xenova/all-MiniLM-L6-v2".

Definition set_extractor (b : bool) : IO unit :=
  λ w, (Returns (),
        {| collection := collection w; upserts := upserts w;
           console := console w; extractor := b |}).

Definition get_extractor : IO bool := λ w, (Returns (extractor w), w).

(** [embeddingsTensor[i].data]: reading a row past the last one throws
    (the text of the error is the library's; no property depends on it). *)
Definition tensorRow (tensor : list TensorRow) (i : nat) : IO TensorRow :=
  match tensor !! i with
  | Some row => mret row
  | None => throw "index is out of bounds for the tensor"
  end.

Section WithEnv.
Context (env : Env).

(** The module-level variable [pdf] after the [try]/[catch] around
    [require]; [None] stands for a value that is not a function. *)
Definition pdf : option (Buffer → Outcome PdfParseResult) :=
  match require_pdf_parse env with
  | RequireFunction parse => Some parse
  | RequireNotFunction => None
  | RequireThrows =>
      Some (λ _, Throws "PDF parsing dependency 'pdf-parse' failed to load.")
  end.

Definition initializeExtractor : IO unit :=
  initialized ← get_extractor;
  if (initialized : bool) then mret ()
  else
    console_log ("Initializing Xenova pipeline with model: "
                 +:+ XENOVA_EMBEDDING_MODEL +:+ "...");;
    await (pipeline env XENOVA_EMBEDDING_MODEL);;
    set_extractor true;;
    console_log "Xenova pipeline initialized successfully.".

Definition getOrCreateCollection : IO unit :=
  console_log ("Attempting to connect to Chroma at: " +:+ CHROMA_HOST env);;
  try_catch
    (await (chroma_getOrCreateCollection env COLLECTION_NAME);;
     console_log ("Successfully connected and retrieved/created collection: "
                  +:+ COLLECTION_NAME))
    (λ error,
       console_error ("Error connecting to ChromaDB: " +:+ error);;
       throw ("Failed to connect to ChromaDB. Ensure the service is running at "
              +:+ CHROMA_HOST env)).

Definition extractTextFromPdf (filePath : string) : IO string :=
  dataBuffer ← await (readFile env filePath);
  match pdf with
  | None =>
      throw "PDF parsing dependency 'pdf-parse' is not available or failed to load."
  | Some parse =>
      try_catch
        (data ← await (parse dataBuffer);
         mret (trim env (text data)))
        (λ message,
           console_error ("Error parsing PDF file " +:+ filePath +:+ ": " +:+ message);;
           throw ("PDF Parsing failed for " +:+ path_basename env filePath
                  +:+ ": " +:+ message))
  end.

(** [for (let i = 0; i < allChunks.length; i++)]: [remaining] is
    [allChunks.length - i]. *)
Fixpoint embeddingsLoop (embeddingsTensor : list TensorRow) (i remaining : nat)
    (embeddingsArray : list vector) : IO (list vector) :=
  match remaining with
  | 0 => mret embeddingsArray
  | S remaining' =>
      row ← tensorRow embeddingsTensor i;
      embeddingsLoop embeddingsTensor (S i) remaining'
        (embeddingsArray ++ [data row])
  end.

Definition generateEmbeddingsXenova (allChunks : list string) : IO (list vector) :=
  initializeExtractor;;
  console_log ("Generating embeddings for " +:+ show (length allChunks)
               +:+ " chunks using Xenova/transformers...");;
  embeddingsTensor ← await (featureExtraction env allChunks);
  embeddingsArray ← embeddingsLoop embeddingsTensor 0 (length allChunks) [];
  console_log "All embeddings generated successfully by Xenova.";;
  mret embeddingsArray.

(** One iteration of [for (const fileName of files)]: the result is
    the value of [chunkCount] when the iteration ends, which a
    [continue] leaves as it was. *)
Definition ingestFile (fileName : string) (chunkCount : nat) : IO nat :=
  let filePath := path_join env (DOCUMENTS_DIR env) fileName in
  console_log (LF +:+ "--- Processing file: " +:+ fileName +:+ " ---");;
  extracted ←
    try_catch (A := option string)
      (fullText ← extractTextFromPdf filePath; mret (Some fullText))
      (λ message,
         console_warn ("[SKIPPING] Failed to parse " +:+ fileName
                       +:+ ": " +:+ message);;
         mret None);
  match extracted with
  | None => mret chunkCount
  | Some fullText =>
      if decide (String.length fullText = 0) then
        console_warn ("[SKIPPING] File " +:+ fileName
          +:+ " could not be parsed or contains no text. Check if it's a scanned PDF.");;
        mret chunkCount
      else
        let chunks := splitText env splitterOptions fullText in
        if decide (length chunks = 0) then
          console_warn ("[SKIPPING] File " +:+ fileName
            +:+ " yielded text, but no chunks were created after splitting. Skipping ingestion.");;
          mret chunkCount
        else
          embeddings ← generateEmbeddingsXenova chunks;
          collection_upsert (chroma_rejects env)
            (upsertRequest fileName chunks embeddings);;
          let chunkCount := chunkCount + length chunks in
          console_log ("File " +:+ fileName
                       +:+ " successfully ingested. Total chunks added/updated: "
                       +:+ show chunkCount);;
          mret chunkCount
  end.

Fixpoint ingestLoop (files : list string) (chunkCount : nat) : IO nat :=
  match files with
  | [] => mret chunkCount
  | fileName :: files' =>
      chunkCount ← ingestFile fileName chunkCount;
      ingestLoop files' chunkCount
  end.

Definition ingestDocumentsXenova : IO IngestResult :=
  try_finally
    (try_catch
       (getOrCreateCollection;;
        listing ← await (readdir env (DOCUMENTS_DIR env));
        let files := filter (λ file, endsWith file ".pdf" = true) listing in
        if decide (length files = 0) then
          mret {| success := false; count := 0;
                  error := Some ("No PDF files found in the directory: "
                                 +:+ DOCUMENTS_DIR env) |}
        else
          chunkCount ← ingestLoop files 0;
          mret {| success := true; count := chunkCount; error := None |})
       (λ message,
          console_error ("XENOVA INGESTION FAILED: " +:+ message);;
          mret {| success := false; count := 0; error := Some message |}))
    (λ w, if extractor w
          then {| collection := collection w; upserts := upserts w;
                  console := console w; extractor := false |}
          else w).

(** The text of a document, when [extractTextFromPdf] returns. *)
Definition extractedText (fileName : string) : option string :=
  match readFile env (path_join env (DOCUMENTS_DIR env) fileName), pdf with
  | Returns dataBuffer, Some parse =>
      match parse dataBuffer with
      | Returns data => Some (trim env (text data))
      | Throws _ => None
      end
  | _, _ => None
  end.

(** The chunks of a document that is not skipped. *)
Definition documentChunks (fileName : string) : option (list string) :=
  match extractedText fileName with
  | Some fullText =>
      let chunks := splitText env splitterOptions fullText in
      if decide (String.length fullText = 0) then None
      else if decide (length chunks = 0) then None
      else Some chunks
  | None => None
  end.

(** The documents of [files] that are not skipped, with their chunks. *)
Definition planned (files : list string) : list (string * list string) :=
  omap (λ fileName, pair fileName <$> documentChunks fileName) files.

(** [req] is the request the pipeline builds for the document
    [fileName]: its chunks, with the first rows of the tensor of the
    feature-extraction pipeline, one per chunk. *)
Definition requestOf (fileName : string) (req : UpsertRequest) : Prop :=
  ∃ chunks tensor,
    documentChunks fileName = Some chunks ∧
    featureExtraction env chunks = Returns tensor ∧
    length chunks ≤ length tensor ∧
    req = upsertRequest fileName chunks (map data (take (length chunks) tensor)).

End WithEnv.

(** Two environments hold the same documents: they list, extract and
    split alike (their embedding runtimes may differ). *)
Definition sameDocuments (env1 env2 : Env) : Prop :=
  DOCUMENTS_DIR env1 = DOCUMENTS_DIR env2 ∧
  readdir env1 = readdir env2 ∧
  readFile env1 = readFile env2 ∧
  path_join env1 = path_join env2 ∧
  require_pdf_parse env1 = require_pdf_parse env2 ∧
  trim env1 = trim env2 ∧
  splitText env1 = splitText env2.

End IngestionXenova.

(** ** The chat route handler

    [POST] of the Xenova chat route.  [runRAGChatXenova], imported from
    [@/lib/retrieval_xenova], is the only place where the handler embeds
    the query, queries the collection and calls the generative model; it is
    a collaborator of the handler. *)

Module ChatRoute.

Local Set Warnings "-register-all".

(** A parsed JSON value.  The fields of an object are kept in source
    order; a later binding of a key overrides an earlier one. *)
Inductive JSON : Type :=
| JNull
| JBool (b : bool)
| JNumber (x : float)
| JString (s : string)
| JArray (items : list JSON)
| JObject (fields : list (string * JSON)).

(** The value of an own property of an object, [None] for [undefined]. *)
Fixpoint property (key : string) (fields : list (string * JSON)) : option JSON :=
  match fields with
  | [] => None
  | (k, v) :: fields' =>
      match property key fields' with
      | Some later => Some later
      | None => if decide (k = key) then Some v else None
      end
  end.

(** [const { query } = value]: destructuring [null] throws a
    [TypeError]; a primitive or an array has no [query] property. *)
Definition destructure_query (value : JSON) : Outcome (option JSON) :=
  match value with
  | JNull => Throws "Cannot destructure property 'query' of null."
  | JObject fields => Returns (property "query" fields)
  | _ => Returns None
  end.

(** [!query] for a [query] that is not [undefined]. *)
Definition falsy (query : JSON) : bool :=
  match query with
  | JNull => true
  | JBool b => negb b
  | JNumber x => PrimFloat.eqb x 0 || PrimFloat.is_nan x
  | JString s => bool_decide (s = EmptyString)
  | JArray _ | JObject _ => false
  end.

Definition Stream : Type := list string.

Inductive Body : Type :=
| JsonBody (fields : list (string * string))
| StreamBody (stream : Stream).

Record Response : Type := {
  status : nat;
  headers : list (string * string);
  body : Body
}.

(** What the handler does besides building its response. *)
Inductive Effect : Type :=
| Console (ev : ConsoleEvent)
| Call_runRAGChatXenova (query : JSON).

Section WithCollaborators.
(** [runRAGChatXenova(query)] and the rendering of a value inside a
    template literal. *)
Context (runRAGChatXenova : JSON → Outcome Stream).
Context (template : JSON → string).

(** The [catch] block. *)
Definition serverError (message : string) (done : list Effect)
    : Response * list Effect :=
  ({| status := 500; headers := [];
      body := JsonBody [("error", "An error occurred during Xenova RAG processing.");
                        ("details", message)] |},
   done ++ [Console (ConsoleError ("Xenova Chat API Error: " +:+ message))]).

(** The response of the [if (!query)] branch. *)
Definition missingQuery : Response * list Effect :=
  ({| status := 400; headers := [];
      body := JsonBody [("error", "Missing query parameter in request body.")] |},
   []).

(** [POST(req)], given the outcome of [await req.json()]. *)
Definition POST (req_json : Outcome JSON) : Response * list Effect :=
  match req_json with
  | Throws message => serverError message []
  | Returns value =>
      match destructure_query value with
      | Throws message => serverError message []
      | Returns None => missingQuery
      | Returns (Some query) =>
          if falsy query then missingQuery
          else
            let logged :=
              [Console (ConsoleLog ("[XENOVA API] Received chat query: "
                                    +:+ template query));
               Call_runRAGChatXenova query] in
            match runRAGChatXenova query with
            | Throws message => serverError message logged
            | Returns stream =>
                ({| status := 200;
                    headers := [("Content-Type", "text/plain; charset=utf-8");
                                ("Transfer-Encoding", "chunked")];
                    body := StreamBody stream |},
                 logged)
            end
      end
  end.

End WithCollaborators.

End ChatRoute.


(** ** Vocabulary of the properties *)

(** The result of a run whose loop over the files ended with [r]. *)
Definition resultOf (r : Outcome nat) : IngestResult :=
  match r with
  | Returns chunkCount => {| success := true; count := chunkCount; error := None |}
  | Throws message => {| success := false; count := 0; error := Some message |}
  end.

(** The collection after the store has received the requests [reqs], in
    order, starting from the collection [c]. *)
Definition stored (rejects : UpsertRequest → option string)
    (reqs : list UpsertRequest) (c : gmap string Row) : gmap string Row :=
  foldl (λ c req, match rejects req with
                  | Some _ => c
                  | None => apply_upsert req c
                  end) c reqs.

(** The id arrays of the requests for the documents [docs], each given
    with its chunks. *)
Definition idsOf (docs : list (string * list string)) : list (list string) :=
  map (λ doc, map (rowId doc.1) (seq 0 (length doc.2))) docs.

(** The requests [reqs] are, in order, the requests built for some of
    the files [files], each file at most as often as it is listed;
    [requestOf fileName req] says that [req] is built for [fileName]. *)
Definition requestsOf (requestOf : string → UpsertRequest → Prop)
    (files : list string) (reqs : list UpsertRequest) : Prop :=
  ∃ fs, fs `sublist_of` files ∧ Forall2 requestOf fs reqs.

(** The number of chunks of the documents [docs]. *)
Definition chunkTotal (docs : list (string * list string)) : nat :=
  sum_list_with (λ doc, length doc.2) docs.

(** What a part of a run did to the store, and what it returned: the
    requests [reqs] were received in order; if the part returned, every
    request was accepted, there is one request per planned document, and
    the running total grew by the number of their chunks. *)
Definition ran (rejects : UpsertRequest → option string)
    (docs : list (string * list string)) (n : nat)
    (w : World) (r : Outcome nat) (w' : World) (reqs : list UpsertRequest) : Prop :=
  upserts w' = upserts w ++ reqs ∧
  collection w' = stored rejects reqs (collection w) ∧
  match r with
  | Returns m =>
      Forall (λ req, rejects req = None) reqs ∧
      map ids reqs = idsOf docs ∧
      m = n + chunkTotal docs
  | Throws _ => True
  end.

(** [listing.filter(file => file.endsWith('.pdf'))], the files both
    pipelines iterate over. *)
Definition pdfFiles (listing : list string) : list string :=
  filter (λ file, endsWith file ".pdf" = true) listing.

(** ** The two pipelines, side by side *)

Inductive Pipeline : Type :=
| Cloud (env : Ingestion.Env)
| Local (env : IngestionXenova.Env).

(** [ingestDocuments()] or [ingestDocumentsXenova()]. *)
Definition ingest (p : Pipeline) : IO IngestResult :=
  match p with
  | Cloud env => Ingestion.ingestDocuments env
  | Local env => IngestionXenova.ingestDocumentsXenova env
  end.

(** The provider's [embed]: [generateEmbeddings] or
    [generateEmbeddingsXenova]. *)
Definition embedTexts (p : Pipeline) (texts : list string) : IO (list vector) :=
  match p with
  | Cloud env => Ingestion.generateEmbeddings env texts
  | Local env => IngestionXenova.generateEmbeddingsXenova env texts
  end.

Definition directoryOf (p : Pipeline) : string :=
  match p with
  | Cloud env => Ingestion.DOCUMENTS_DIR env
  | Local env => IngestionXenova.DOCUMENTS_DIR env
  end.

Definition hostOf (p : Pipeline) : string :=
  match p with
  | Cloud env => Ingestion.CHROMA_HOST env
  | Local env => IngestionXenova.CHROMA_HOST env
  end.

(** The outcome of connecting to the pipeline's collection. *)
Definition connectionOf (p : Pipeline) : Outcome unit :=
  match p with
  | Cloud env => Ingestion.chroma_getOrCreateCollection env Ingestion.COLLECTION_NAME
  | Local env =>
      IngestionXenova.chroma_getOrCreateCollection env IngestionXenova.COLLECTION_NAME
  end.

(** The outcome of listing the documents directory. *)
Definition listingOf (p : Pipeline) : Outcome (list string) :=
  match p with
  | Cloud env => Ingestion.readdirSync env (Ingestion.DOCUMENTS_DIR env)
  | Local env => IngestionXenova.readdir env (IngestionXenova.DOCUMENTS_DIR env)
  end.

Definition rejectsOf (p : Pipeline) : UpsertRequest → option string :=
  match p with
  | Cloud env => Ingestion.chroma_rejects env
  | Local env => IngestionXenova.chroma_rejects env
  end.

Definition plannedOf (p : Pipeline) : list string → list (string * list string) :=
  match p with
  | Cloud env => Ingestion.planned env
  | Local env => IngestionXenova.planned env
  end.

Definition requestFor (p : Pipeline) : string → UpsertRequest → Prop :=
  match p with
  | Cloud env => Ingestion.requestOf env
  | Local env => IngestionXenova.requestOf env
  end.

(** Two runs of one pipeline over the same documents. *)
Definition sameDocuments (p1 p2 : Pipeline) : Prop :=
  match p1, p2 with
  | Cloud env1, Cloud env2 => Ingestion.sameDocuments env1 env2
  | Local env1, Local env2 => IngestionXenova.sameDocuments env1 env2
  | _, _ => False
  end.

(** The result of a run that found no PDF file. *)
Definition noPdfFiles (p : Pipeline) : IngestResult :=
  {| success := false; count := 0;
     error := Some ("No PDF files found in the directory: " +:+ directoryOf p) |}.

(** ** Sample environments *)

(** [String.prototype.trim] on ASCII white space. *)
Fixpoint trimStart (s : string) : string :=
  match s with
  | String a s' => if Ascii.is_space a then trimStart s' else s
  | EmptyString => EmptyString
  end.

Definition asciiTrim (s : string) : string :=
  String.rev (trimStart (String.rev (trimStart s))).

(** A splitter that cuts at white space, and an embedding function. *)
Definition wordSplitter (_ : SplitterOptions) (text : string) : list string :=
  String.words text.

Definition sampleEmbed (text : string) : vector :=
  [if bool_decide (text = "alpha") then 1%float else 0%float; 0.5%float].

Definition emptyWorld : World :=
  {| collection := ∅; upserts := []; console := []; extractor := false |}.

Definition joinPath (dir file : string) : string := dir +:+ "/" +:+ file.

Definition samplePage (words : list string) : Ingestion.Page :=
  {| Ingestion.Texts :=
       [{| Ingestion.R := map (λ word, {| Ingestion.T := word |}) words |}] |}.

(** Three documents: [a.pdf] (three words), [b.pdf] (one word) and
    [empty.pdf] (a scanned page, without any text run); any other path is
    not a PDF. *)
Definition samplePdf (filePath : string) : Ingestion.PdfEvent :=
  if decide (filePath = "/app/documents/a.pdf") then
    Ingestion.pdfParser_dataReady
      {| Ingestion.Pages := [samplePage ["alpha"; "beta"; "gamma"]] |}
  else if decide (filePath = "/app/documents/b.pdf") then
    Ingestion.pdfParser_dataReady {| Ingestion.Pages := [samplePage ["delta"]] |}
  else if decide (filePath = "/app/documents/empty.pdf") then
    Ingestion.pdfParser_dataReady {| Ingestion.Pages := [samplePage []] |}
  else Ingestion.pdfParser_dataError "Invalid PDF structure".

(** An embedding service that answers every batch, one embedding per
    content. *)
Definition sampleService (_ : string) (contents : list Ingestion.Content)
    : Outcome Ingestion.EmbedContentResponse :=
  Returns {| Ingestion.response_embeddings :=
               Some (map (λ content,
                            {| Ingestion.values :=
                                 sampleEmbed (join EmptyString
                                                (map Ingestion.text (Ingestion.parts content))) |})
                         contents) |}.

(** A later version of the service, whose embeddings differ. *)
Definition laterService (_ : string) (contents : list Ingestion.Content)
    : Outcome Ingestion.EmbedContentResponse :=
  Returns {| Ingestion.response_embeddings :=
               Some (map (λ _, {| Ingestion.values := [2%float] |}) contents) |}.

(** An embedding service that fails on a batch of a single content. *)
Definition failingService (model : string) (contents : list Ingestion.Content)
    : Outcome Ingestion.EmbedContentResponse :=
  if decide (length contents = 1) then Throws "429 Too Many Requests"
  else sampleService model contents.

Definition cloudEnv (listing : list string)
    (service : string → list Ingestion.Content → Outcome Ingestion.EmbedContentResponse)
    : Ingestion.Env :=
  {| Ingestion.DOCUMENTS_DIR := "/app/documents";
     Ingestion.CHROMA_HOST := "http://localhost:8000";
     Ingestion.chroma_getOrCreateCollection := λ _, Returns ();
     Ingestion.chroma_rejects := λ _, None;
     Ingestion.readdirSync := λ _, Returns listing;
     Ingestion.path_join := joinPath;
     Ingestion.loadPDF := samplePdf;
     Ingestion.decodeURIComponent := λ s, s;
     Ingestion.splitText := wordSplitter;
     Ingestion.embedContent := service |}.

(** The files of the local sample: the bytes of a file are its text. *)
Definition sampleFile (filePath : string) : Outcome IngestionXenova.Buffer :=
  if decide (filePath = "/app/documents/a.pdf") then
    Returns (String.list_byte_of_string " alpha beta gamma ")
  else if decide (filePath = "/app/documents/b.pdf") then
    Returns (String.list_byte_of_string "delta")
  else if decide (filePath = "/app/documents/empty.pdf") then
    Returns (String.list_byte_of_string "  ")
  else Throws "ENOENT: no such file or directory".

Definition sampleParse (dataBuffer : IngestionXenova.Buffer)
    : Outcome IngestionXenova.PdfParseResult :=
  Returns {| IngestionXenova.text := String.string_of_list_byte dataBuffer;
             IngestionXenova.numpages := 1 |}.

Definition sampleTensor (texts : list string) : Outcome (list IngestionXenova.TensorRow) :=
  Returns (map (λ text, {| IngestionXenova.data := sampleEmbed text |}) texts).

(** A feature-extraction pipeline that fails on a single text. *)
Definition failingTensor (texts : list string) : Outcome (list IngestionXenova.TensorRow) :=
  if decide (length texts = 1) then Throws "Out of memory"
  else sampleTensor texts.

Definition localEnv (listing : list string)
    (featureExtraction : list string → Outcome (list IngestionXenova.TensorRow))
    : IngestionXenova.Env :=
  {| IngestionXenova.DOCUMENTS_DIR := "/app/documents";
     IngestionXenova.CHROMA_HOST := "http://localhost:8000";
     IngestionXenova.chroma_getOrCreateCollection := λ _, Returns ();
     IngestionXenova.chroma_rejects := λ _, None;
     IngestionXenova.readdir := λ _, Returns listing;
     IngestionXenova.readFile := sampleFile;
     IngestionXenova.path_join := joinPath;
     IngestionXenova.path_basename := λ filePath, filePath;
     IngestionXenova.require_pdf_parse := IngestionXenova.RequireFunction sampleParse;
     IngestionXenova.trim := asciiTrim;
     IngestionXenova.splitText := wordSplitter;
     IngestionXenova.pipeline := λ _, Returns ();
     IngestionXenova.featureExtraction := featureExtraction |}.

(** ** The ingestion route handlers

    [src/app/api/ingest/route.ts] answers a POST with a run of the cloud
    pipeline, and the Xenova ingestion route with a run of the local one. *)

(** The JSON body of an answer: [{ message, count }] or
    [{ message, error }], where [error] may be [undefined]. *)
Inductive IngestBody : Type :=
| IngestedBody (message : string) (count : nat)
| FailedBody (message : string) (error : option string).

Record IngestResponse : Type := {
  ingest_status : nat;
  ingest_body : IngestBody
}.

Module IngestRoute.

Definition POST (env : Ingestion.Env) : IO IngestResponse :=
  console_log "Ingestion request received...";;
  try_catch
    (result ← Ingestion.ingestDocuments env;
     if success result then
       mret {| ingest_status := 200;
               ingest_body :=
                 IngestedBody ("Ingestion successful. Total chunks added to ChromaDB: "
                               +:+ show (count result))
                              (count result) |}
     else
       mret {| ingest_status := 500;
               ingest_body := FailedBody "Ingestion failed." (error result) |})
    (λ message,
       console_error ("API Ingestion Error: " +:+ message);;
       mret {| ingest_status := 500;
               ingest_body :=
                 FailedBody "Internal server error during ingestion process."
                            (Some message) |}).

End IngestRoute.

Module IngestRouteXenova.

Definition POST (env : IngestionXenova.Env) : IO IngestResponse :=
  console_log "Ingestion request received...";;
  try_catch
    (result ← IngestionXenova.ingestDocumentsXenova env;
     if success result then
       mret {| ingest_status := 200;
               ingest_body :=
                 IngestedBody ("Ingestion successful. Total chunks added to ChromaDB: "
                               +:+ show (count result))
                              (count result) |}
     else
       mret {| ingest_status := 500;
               ingest_body := FailedBody "Ingestion failed." (error result) |})
    (λ message,
       console_error ("API Ingestion Error: " +:+ message);;
       mret {| ingest_status := 500;
               ingest_body :=
                 FailedBody "Internal server error during ingestion process."
                            (Some message) |}).

End IngestRouteXenova.

(** The route handler of a pipeline. *)
Definition ingestRoute (p : Pipeline) : IO IngestResponse :=
  match p with
  | Cloud env => IngestRoute.POST env
  | Local env => IngestRouteXenova.POST env
  end.

(** The answer that reports the result [res] of a run. *)
Definition answerOf (res : IngestResult) : IngestResponse :=
  if success res then
    {| ingest_status := 200;
       ingest_body :=
         IngestedBody ("Ingestion successful. Total chunks added to ChromaDB: "
                       +:+ show (count res))
                      (count res) |}
  else
    {| ingest_status := 500;
       ingest_body := FailedBody "Ingestion failed." (error res) |}.

(** The world once the handler has printed its first line. *)
Definition requestReceived (w : World) : World :=
  {| collection := collection w; upserts := upserts w;
     console := console w ++ [ConsoleLog "Ingestion request received..."];
     extractor := extractor w |}.

(** ** More sample environments *)

(** The cloud sample with another connection outcome, and with another
    outcome of listing the directory. *)
Definition cloudEnvWith (connection : Outcome unit) (listing : Outcome (list string))
    : Ingestion.Env :=
  {| Ingestion.DOCUMENTS_DIR := "/app/documents";
     Ingestion.CHROMA_HOST := "http://localhost:8000";
     Ingestion.chroma_getOrCreateCollection := λ _, connection;
     Ingestion.chroma_rejects := λ _, None;
     Ingestion.readdirSync := λ _, listing;
     Ingestion.path_join := joinPath;
     Ingestion.loadPDF := samplePdf;
     Ingestion.decodeURIComponent := λ s, s;
     Ingestion.splitText := wordSplitter;
     Ingestion.embedContent := sampleService |}.

(** The local sample with another outcome of [require('pdf-parse')], of
    [pipeline(...)] and of the feature extraction. *)
Definition localEnvWith (listing : list string)
    (required : IngestionXenova.RequireResult)
    (pipeline : Outcome unit)
    (featureExtraction : list string → Outcome (list IngestionXenova.TensorRow))
    : IngestionXenova.Env :=
  {| IngestionXenova.DOCUMENTS_DIR := "/app/documents";
     IngestionXenova.CHROMA_HOST := "http://localhost:8000";
     IngestionXenova.chroma_getOrCreateCollection := λ _, Returns ();
     IngestionXenova.chroma_rejects := λ _, None;
     IngestionXenova.readdir := λ _, Returns listing;
     IngestionXenova.readFile := sampleFile;
     IngestionXenova.path_join := joinPath;
     IngestionXenova.path_basename := λ filePath, filePath;
     IngestionXenova.require_pdf_parse := required;
     IngestionXenova.trim := asciiTrim;
     IngestionXenova.splitText := wordSplitter;
     IngestionXenova.pipeline := λ _, pipeline;
     IngestionXenova.featureExtraction := featureExtraction |}.

(** A tensor with one row too few, and one with a row too many. *)
Definition shortTensor (texts : list string) : Outcome (list IngestionXenova.TensorRow) :=
  Returns (map (λ text, {| IngestionXenova.data := sampleEmbed text |}) (tail texts)).

Definition longTensor (texts : list string) : Outcome (list IngestionXenova.TensorRow) :=
  Returns (map (λ text, {| IngestionXenova.data := sampleEmbed text |})
               (texts ++ ["padding"])).

(** An embedding service that answers every batch with a single
    embedding. *)
Definition singleService (_ : string) (contents : list Ingestion.Content)
    : Outcome Ingestion.EmbedContentResponse :=
  Returns {| Ingestion.response_embeddings :=
               Some [{| Ingestion.values := [1%float] |}] |}.

(** ** Observations that a computation leaves as they are *)

(** The computation [m] never changes what [obs] observes of the world,
    whether it returns or throws. *)
Definition preserves {X A : Type} (obs : World → X) (m : IO A) : Prop :=
  ∀ w r w', m w = (r, w') → obs w' = obs w.

(** The lines warned so far. *)
Definition warned (w : World) : list string := warnings (console w).

(** The store: the rows of the collection and the requests received. *)
Definition store (w : World) : gmap string Row * list UpsertRequest :=
  (collection w, upserts w).

(** The queries the chat handler called [runRAGChatXenova] with, in
    order. *)
Definition callsOf (effects : list ChatRoute.Effect) : list ChatRoute.JSON :=
  omap (λ effect, match effect with
                  | ChatRoute.Call_runRAGChatXenova query => Some query
                  | ChatRoute.Console _ => None
                  end) effects.
(** * Properties *)

(** ** The id and metadata arrays *)

Lemma pushLoop_spec fileName i remaining ids metadatas :
  pushLoop fileName i remaining ids metadatas
  = (ids ++ map (rowId fileName) (seq i remaining),
     metadatas ++ map (λ j, {| source := fileName; chunk_index := j |})
                      (seq i remaining)).
Proof.
  revert i ids metadatas.
  induction remaining as [|n IH]; intros i ids metadatas; simpl.
  - by rewrite !app_nil_r.
  - rewrite IH, <- !app_assoc. done.
Qed.

Lemma upsertRequest_eq fileName chunks embs :
  upsertRequest fileName chunks embs
  = {| ids := map (rowId fileName) (seq 0 (length chunks));
       embeddings := embs;
       documents := chunks;
       metadatas := map (λ j, {| source := fileName; chunk_index := j |})
                        (seq 0 (length chunks)) |}.
Proof. unfold upsertRequest. by rewrite pushLoop_spec. Qed.

Lemma upsertRequest_ids_lookup fileName chunks embs i :
  i < length chunks →
  ids (upsertRequest fileName chunks embs) !! i = Some (rowId fileName i).
Proof.
  intros Hi. rewrite upsertRequest_eq. simpl.
  rewrite list_lookup_fmap, lookup_seq_lt by done. done.
Qed.

Lemma upsertRequest_metadatas_lookup fileName chunks embs i :
  i < length chunks →
  metadatas (upsertRequest fileName chunks embs) !! i
  = Some {| source := fileName; chunk_index := i |}.
Proof.
  intros Hi. rewrite upsertRequest_eq. simpl.
  rewrite list_lookup_fmap, lookup_seq_lt by done. done.
Qed.

Lemma upsertRequest_ids_NoDup fileName chunks embs :
  NoDup (ids (upsertRequest fileName chunks embs)).
Proof.
  rewrite upsertRequest_eq. simpl.
  apply (NoDup_fmap_2 (rowId fileName)), NoDup_seq.
Qed.

(** The index is rendered in digits, so the last dash of a row id
    separates the file name from the index: a row id determines both. *)
Lemma pretty_N_go_dashFree (x : N) (s : string) :
  dashFree s → dashFree (pretty_N_go x s).
Proof.
  revert s. induction (N.lt_wf_0 x) as [x _ IH]; intros s Hs.
  destruct (decide (x = 0)%N) as [->|Hx]; [by rewrite pretty_N_go_0|].
  rewrite pretty_N_go_step by lia. apply IH.
  - apply N.div_lt; lia.
  - simpl. split; [|done]. unfold pretty_N_char. by repeat case_match.
Qed.

Lemma show_dashFree (n : nat) : dashFree (show n).
Proof.
  unfold show, pretty, pretty_nat, pretty, pretty_N.
  case_decide; [by simpl|]. by apply pretty_N_go_dashFree.
Qed.

Lemma dashFree_no_dash (s1 s2 : string) : ¬ dashFree (s1 +:+ "-" +:+ s2).
Proof.
  induction s1 as [|a s1 IH]; simpl.
  - by intros [? _].
  - intros [_ ?]. by apply IH.
Qed.

Lemma dash_split (a b x y : string) :
  dashFree x → dashFree y →
  a +:+ "-" +:+ x = b +:+ "-" +:+ y → a = b ∧ x = y.
Proof.
  intros Hx Hy. revert b.
  induction a as [|c a IH]; intros [|d b] Heq.
  - change (String "-" x = String "-" y) in Heq. by simplify_eq.
  - change (String "-" x = String d (b +:+ "-" +:+ y)) in Heq.
    injection Heq as <- ->. by apply dashFree_no_dash in Hx.
  - change (String c (a +:+ "-" +:+ x) = String "-" y) in Heq.
    injection Heq as -> <-. by apply dashFree_no_dash in Hy.
  - change (String c (a +:+ "-" +:+ x) = String d (b +:+ "-" +:+ y)) in Heq.
    injection Heq as <- Heq. apply IH in Heq as [-> ->]. done.
Qed.

Lemma rowId_eq fileName1 fileName2 i j :
  rowId fileName1 i = rowId fileName2 j → fileName1 = fileName2 ∧ i = j.
Proof.
  intros Heq. apply dash_split in Heq as [-> Heq]; try apply show_dashFree.
  split; [done|]. by apply (inj pretty) in Heq.
Qed.

(** ** Writing rows *)

Lemma write_rows_notin req i keys (c : gmap string Row) k :
  k ∉ keys → write_rows req i keys c !! k = c !! k.
Proof.
  revert i c. induction keys as [|k' keys IH]; intros i c Hk; simpl; [done|].
  apply not_elem_of_cons in Hk as [Hne Hk].
  rewrite IH by done. by rewrite lookup_insert_ne.
Qed.

Lemma write_rows_lookup req i keys (c : gmap string Row) j k :
  NoDup keys → keys !! j = Some k →
  write_rows req i keys c !! k = Some (row_at req (i + j)).
Proof.
  revert i c j. induction keys as [|k' keys IH]; intros i c j Hnd Hj; [done|].
  apply NoDup_cons in Hnd as [Hk' Hnd]. destruct j as [|j]; simpl in *.
  - simplify_eq. rewrite write_rows_notin by done.
    rewrite lookup_insert_eq. do 2 f_equal. lia.
  - rewrite (IH _ _ j) by done. do 2 f_equal. lia.
Qed.

Lemma write_rows_dom req i keys (c : gmap string Row) :
  dom (write_rows req i keys c) = list_to_set keys ∪ dom c.
Proof.
  revert i c. induction keys as [|k keys IH]; intros i c; simpl.
  - set_solver.
  - rewrite IH, dom_insert_L. set_solver.
Qed.

(** ** The store after a sequence of requests *)

Lemma stored_app rejects reqs1 reqs2 (c : gmap string Row) :
  stored rejects (reqs1 ++ reqs2) c = stored rejects reqs2 (stored rejects reqs1 c).
Proof. unfold stored. by rewrite foldl_app. Qed.

(** ** Requests and the files they are built for *)

Lemma requestsOf_nil requestOf files : requestsOf requestOf files [].
Proof. exists []. split; [apply sublist_nil_l|constructor]. Qed.

Lemma requestsOf_one (requestOf : string → UpsertRequest → Prop) fileName req :
  requestOf fileName req → requestsOf requestOf [fileName] [req].
Proof. intros Hreq. exists [fileName]. split; [done|]. by repeat constructor. Qed.

Lemma requestsOf_app requestOf files1 files2 reqs1 reqs2 :
  requestsOf requestOf files1 reqs1 →
  requestsOf requestOf files2 reqs2 →
  requestsOf requestOf (files1 ++ files2) (reqs1 ++ reqs2).
Proof.
  intros (fs1 & Hsub1 & Hall1) (fs2 & Hsub2 & Hall2).
  exists (fs1 ++ fs2). split; [by apply sublist_app|by apply Forall2_app].
Qed.

Lemma requestsOf_weaken requestOf files1 files2 reqs :
  requestsOf requestOf files1 reqs →
  requestsOf requestOf (files1 ++ files2) reqs.
Proof.
  intros Hreqs. rewrite <- (app_nil_r reqs).
  apply requestsOf_app; [done|apply requestsOf_nil].
Qed.

Lemma requestsOf_Forall requestOf files reqs :
  requestsOf requestOf files reqs →
  Forall (λ req, ∃ fileName, fileName ∈ files ∧ requestOf fileName req) reqs.
Proof.
  intros (fs & Hsub & Hall). apply Forall_forall. intros req Hreq.
  apply list_elem_of_lookup in Hreq as [i Hi].
  destruct (Forall2_lookup_r _ _ _ _ _ Hall Hi) as (f & Hf & Hreq).
  exists f. split; [|done].
  eapply elem_of_sublist; [|exact Hsub]. by eapply list_elem_of_lookup_2.
Qed.

(** ** Unfolding the effect monad *)

Ltac io_unfold :=
  unfold console_log, console_warn, console_error, emit, collection_upsert,
    try_catch, try_finally, await, throw, mbind, IO_bind, mret, IO_ret in *.

(** ** The cloud pipeline, one document at a time *)

Lemma cloud_generateEmbeddings_returns env chunks w embs w' :
  Ingestion.generateEmbeddings env chunks w = (Returns embs, w') →
  collection w' = collection w ∧ upserts w' = upserts w ∧
  ∃ es, Ingestion.embedContent env Ingestion.EMBEDDING_MODEL
          (Ingestion.contentsOf chunks)
        = Returns {| Ingestion.response_embeddings := Some es |} ∧
        es ≠ [] ∧ embs = map Ingestion.values es.
Proof.
  unfold Ingestion.generateEmbeddings. io_unfold. simpl.
  destruct (Ingestion.embedContent _ _ _) as [[[[|e es]|]]|msg];
    simpl; intros H; simplify_eq.
  simpl. repeat split; eauto.
Qed.

Lemma cloud_generateEmbeddings_throws env chunks w msg w' :
  Ingestion.generateEmbeddings env chunks w = (Throws msg, w') →
  collection w' = collection w ∧ upserts w' = upserts w.
Proof.
  unfold Ingestion.generateEmbeddings. io_unfold. simpl.
  destruct (Ingestion.embedContent _ _ _) as [[[[|e es]|]]|?];
    simpl; intros H; by simplify_eq.
Qed.

Lemma ran_nil rejects n w : ran rejects [] n w (Returns n) w [].
Proof.
  unfold ran, idsOf, chunkTotal. simpl. rewrite app_nil_r.
  repeat split; auto with lia.
Qed.

Lemma ran_throws_app rejects docs1 docs2 n w msg w' reqs :
  ran rejects docs1 n w (Throws msg) w' reqs →
  ran rejects (docs1 ++ docs2) n w (Throws msg) w' reqs.
Proof. unfold ran. naive_solver. Qed.

Lemma ran_app rejects docs1 docs2 n w m w1 reqs1 r w' reqs2 :
  ran rejects docs1 n w (Returns m) w1 reqs1 →
  ran rejects docs2 m w1 r w' reqs2 →
  ran rejects (docs1 ++ docs2) n w r w' (reqs1 ++ reqs2).
Proof.
  unfold ran. intros (Hu1 & Hc1 & Ha1 & Hi1 & ->) (Hu2 & Hc2 & Hr).
  split; [by rewrite Hu2, Hu1, app_assoc|].
  split; [by rewrite Hc2, Hc1, stored_app|].
  destruct r as [m'|]; [|done].
  destruct Hr as (Ha2 & Hi2 & ->).
  split; [by apply Forall_app|].
  split.
  - unfold idsOf in *. by rewrite !map_app, Hi1, Hi2.
  - unfold chunkTotal. rewrite sum_list_with_app. lia.
Qed.

Lemma cloud_planned_cons env fileName files :
  Ingestion.planned env (fileName :: files)
  = Ingestion.planned env [fileName] ++ Ingestion.planned env files.
Proof. unfold Ingestion.planned. simpl. by destruct (_ <$> _). Qed.

Lemma cloud_ingestFile_ran env fileName n w r w' :
  Ingestion.ingestFile env fileName n w = (r, w') →
  ∃ reqs,
    ran (Ingestion.chroma_rejects env) (Ingestion.planned env [fileName]) n w r w' reqs ∧
    requestsOf (Ingestion.requestOf env) [fileName] reqs.
Proof.
  unfold Ingestion.ingestFile, Ingestion.extractTextFromPdf, Ingestion.chunkText.
  unfold ran, Ingestion.planned, Ingestion.documentChunks.
  io_unfold. simpl.
  destruct (Ingestion.loadPDF _ _) as [pdfData|parserError] eqn:Hload; simpl.
  2:{ intros H; simplify_eq. exists []. simpl. rewrite app_nil_r.
      split; [done|apply requestsOf_nil]. }
  set (chunks := Ingestion.splitText env splitterOptions _).
  match goal with
  | |- context [Ingestion.generateEmbeddings env chunks ?w1] =>
      destruct (Ingestion.generateEmbeddings env chunks w1) as [[embs|msg] w2] eqn:He
  end.
  2:{ apply cloud_generateEmbeddings_throws in He as [Hc Hu]. simpl in *.
      intros H; simplify_eq. exists []. simpl. rewrite app_nil_r.
      split; [done|apply requestsOf_nil]. }
  apply cloud_generateEmbeddings_returns in He as (Hc & Hu & es & Hes & Hne & ->).
  simpl in *.
  destruct (Ingestion.chroma_rejects env
              (upsertRequest fileName chunks (map Ingestion.values es)))
    as [msg|] eqn:Hrej; simpl;
    intros H; simplify_eq; simpl;
    exists [upsertRequest fileName chunks (map Ingestion.values es)]; simpl;
    rewrite Hrej, Hc, Hu.
  all: split;
    [|apply requestsOf_one; exists chunks, es;
      unfold Ingestion.documentChunks; by rewrite Hload].
  - done.
  - repeat split; auto; try (by rewrite upsertRequest_eq).
    all: unfold chunkTotal; simpl; lia.
Qed.

Lemma cloud_ingestLoop_ran env files n w r w' :
  Ingestion.ingestLoop env files n w = (r, w') →
  ∃ reqs,
    ran (Ingestion.chroma_rejects env) (Ingestion.planned env files) n w r w' reqs ∧
    requestsOf (Ingestion.requestOf env) files reqs.
Proof.
  revert n w. induction files as [|fileName files IH]; intros n w.
  - simpl. io_unfold. intros H; simplify_eq. exists [].
    split; [apply ran_nil|apply requestsOf_nil].
  - rewrite cloud_planned_cons. cbn [Ingestion.ingestLoop]. unfold mbind, IO_bind.
    destruct (Ingestion.ingestFile env fileName n w) as [[m|msg] w1] eqn:Hfile;
      apply cloud_ingestFile_ran in Hfile as (reqs1 & Hran1 & Hreq1).
    + intros Hloop. apply IH in Hloop as (reqs2 & Hran2 & Hreq2).
      exists (reqs1 ++ reqs2). split.
      * eapply ran_app; eauto.
      * by apply (requestsOf_app _ [fileName] files).
    + intros H; simplify_eq. exists reqs1. split.
      * by apply ran_throws_app.
      * by apply (requestsOf_weaken _ [fileName] files).
Qed.

(** ** The cloud pipeline, a whole run *)

(** A run always resolves to a result.  It leaves the store alone when the
    connection, the listing or the search for PDF files fails; otherwise
    the result is that of the loop over the PDF files of the listing. *)
Lemma cloud_ingestDocuments_spec env w :
  ∃ res w' reqs,
    Ingestion.ingestDocuments env w = (Returns res, w') ∧
    upserts w' = upserts w ++ reqs ∧
    collection w' = stored (Ingestion.chroma_rejects env) reqs (collection w) ∧
    match Ingestion.chroma_getOrCreateCollection env Ingestion.COLLECTION_NAME with
    | Throws _ =>
        reqs = [] ∧
        res = resultOf (Throws ("Failed to connect to ChromaDB. Ensure the service is running at "
                                +:+ Ingestion.CHROMA_HOST env))
    | Returns _ =>
        match Ingestion.readdirSync env (Ingestion.DOCUMENTS_DIR env) with
        | Throws message => reqs = [] ∧ res = resultOf (Throws message)
        | Returns listing =>
            if decide (length (pdfFiles listing) = 0) then
              reqs = [] ∧
              res = resultOf (Throws ("No PDF files found in the directory: "
                                      +:+ Ingestion.DOCUMENTS_DIR env))
            else
              requestsOf (Ingestion.requestOf env) (pdfFiles listing) reqs ∧
              ∃ r, ran (Ingestion.chroma_rejects env)
                       (Ingestion.planned env (pdfFiles listing)) 0 w r w' reqs ∧
                   res = resultOf r
        end
    end.
Proof.
  unfold Ingestion.ingestDocuments, Ingestion.getOrCreateCollection.
  io_unfold. simpl.
  destruct (Ingestion.chroma_getOrCreateCollection _ _) as [[]|msg]; simpl.
  2:{ eexists _, _, []. rewrite app_nil_r. simpl. eauto 10. }
  destruct (Ingestion.readdirSync _ _) as [listing|msg]; simpl.
  2:{ eexists _, _, []. rewrite app_nil_r. simpl. eauto 10. }
  fold (pdfFiles listing).
  destruct (decide (length (pdfFiles listing) = 0)) as [Hnone|Hsome]; simpl.
  { eexists _, _, []. rewrite app_nil_r. simpl. eauto 10. }
  match goal with
  | |- context [Ingestion.ingestLoop env _ 0 ?w1] =>
      destruct (Ingestion.ingestLoop env (pdfFiles listing) 0 w1)
        as [r w2] eqn:Hloop
  end.
  apply cloud_ingestLoop_ran in Hloop as (reqs & Hran & Hreqs).
  destruct Hran as (Hu & Hc & Hr). simpl in Hu, Hc.
  destruct r as [m|msg]; simpl; eexists _, _, reqs;
    (split; [reflexivity|]); simpl;
    (split; [done|]); (split; [done|]); (split; [done|]).
  - exists (Returns m). split; [|done]. unfold ran. by repeat (split; [done|]).
  - exists (Throws msg). split; [|done]. unfold ran. by repeat (split; [done|]).
Qed.

(** ** The local pipeline, one document at a time *)

Lemma local_embeddingsLoop_spec tensor i remaining acc w r w' :
  IngestionXenova.embeddingsLoop tensor i remaining acc w = (r, w') →
  w' = w ∧
  match r with
  | Returns out =>
      remaining ≤ length tensor - i ∧
      out = acc ++ map IngestionXenova.data (take remaining (drop i tensor))
  | Throws _ => True
  end.
Proof.
  revert i acc. induction remaining as [|n IH]; intros i acc; simpl.
  - io_unfold. intros H; simplify_eq. split; [done|].
    simpl. rewrite app_nil_r. split; [lia|done].
  - unfold IngestionXenova.tensorRow. io_unfold.
    destruct (tensor !! i) as [row|] eqn:Hrow; simpl.
    + intros H. apply IH in H as [-> Hr]. split; [done|].
      destruct r as [out|]; [|done]. destruct Hr as [Hlen ->].
      apply lookup_lt_Some in Hrow as Hi.
      split; [lia|]. rewrite <- app_assoc. f_equal. simpl.
      rewrite (drop_S _ _ _ Hrow). done.
    + intros H; by simplify_eq.
Qed.

Lemma local_generateEmbeddings_returns env chunks w embs w' :
  IngestionXenova.generateEmbeddingsXenova env chunks w = (Returns embs, w') →
  collection w' = collection w ∧ upserts w' = upserts w ∧
  ∃ tensor, IngestionXenova.featureExtraction env chunks = Returns tensor ∧
            length chunks ≤ length tensor ∧
            embs = map IngestionXenova.data (take (length chunks) tensor).
Proof.
  unfold IngestionXenova.generateEmbeddingsXenova, IngestionXenova.initializeExtractor,
    IngestionXenova.get_extractor, IngestionXenova.set_extractor.
  io_unfold. simpl.
  destruct (extractor w); simpl;
    [|destruct (IngestionXenova.pipeline env _) as [[]|?]; simpl; [|intros; simplify_eq]].
  all: destruct (IngestionXenova.featureExtraction env chunks) as [tensor|?];
    simpl; [|intros; simplify_eq].
  all: match goal with
       | |- context [IngestionXenova.embeddingsLoop ?t 0 ?n [] ?w1] =>
           destruct (IngestionXenova.embeddingsLoop t 0 n [] w1)
             as [[out|?] w2] eqn:Hloop
       end; simpl; intros H; simplify_eq.
  all: apply local_embeddingsLoop_spec in Hloop as [-> [Hlen ->]]; simpl.
  all: rewrite drop_0; repeat split; try done.
  all: exists tensor; repeat split; try done; lia.
Qed.

Lemma local_generateEmbeddings_throws env chunks w msg w' :
  IngestionXenova.generateEmbeddingsXenova env chunks w = (Throws msg, w') →
  collection w' = collection w ∧ upserts w' = upserts w.
Proof.
  unfold IngestionXenova.generateEmbeddingsXenova, IngestionXenova.initializeExtractor,
    IngestionXenova.get_extractor, IngestionXenova.set_extractor.
  io_unfold. simpl.
  destruct (extractor w); simpl;
    [|destruct (IngestionXenova.pipeline env _) as [[]|?]; simpl;
      [|intros; by simplify_eq]].
  all: destruct (IngestionXenova.featureExtraction env chunks) as [tensor|?];
    simpl; [|intros; by simplify_eq].
  all: match goal with
       | |- context [IngestionXenova.embeddingsLoop ?t 0 ?n [] ?w1] =>
           destruct (IngestionXenova.embeddingsLoop t 0 n [] w1)
             as [[out|?] w2] eqn:Hloop
       end; simpl; intros H; simplify_eq.
  all: by apply local_embeddingsLoop_spec in Hloop as [-> _].
Qed.

Lemma local_extractText_spec env fileName w r w' :
  IngestionXenova.extractTextFromPdf env
    (IngestionXenova.path_join env (IngestionXenova.DOCUMENTS_DIR env) fileName) w
  = (r, w') →
  collection w' = collection w ∧ upserts w' = upserts w ∧
  match r with
  | Returns fullText => IngestionXenova.extractedText env fileName = Some fullText
  | Throws _ => IngestionXenova.extractedText env fileName = None
  end.
Proof.
  unfold IngestionXenova.extractTextFromPdf, IngestionXenova.extractedText.
  io_unfold.
  destruct (IngestionXenova.readFile env _) as [dataBuffer|?]; simpl;
    [|intros; by simplify_eq].
  destruct (IngestionXenova.pdf env) as [parse|]; simpl; [|intros; by simplify_eq].
  destruct (parse dataBuffer) as [data|?]; simpl; intros; by simplify_eq.
Qed.

Lemma local_planned_cons env fileName files :
  IngestionXenova.planned env (fileName :: files)
  = IngestionXenova.planned env [fileName] ++ IngestionXenova.planned env files.
Proof. unfold IngestionXenova.planned. simpl. by destruct (_ <$> _). Qed.

Lemma local_ingestFile_ran env fileName n w r w' :
  IngestionXenova.ingestFile env fileName n w = (r, w') →
  ∃ reqs,
    ran (IngestionXenova.chroma_rejects env)
        (IngestionXenova.planned env [fileName]) n w r w' reqs ∧
    requestsOf (IngestionXenova.requestOf env) [fileName] reqs.
Proof.
  unfold IngestionXenova.ingestFile.
  unfold ran, IngestionXenova.planned, IngestionXenova.documentChunks.
  io_unfold. simpl.
  match goal with
  | |- context [IngestionXenova.extractTextFromPdf env ?p ?w1] =>
      destruct (IngestionXenova.extractTextFromPdf env p w1)
        as [[fullText|msg] w2] eqn:Hx
  end; apply local_extractText_spec in Hx as (Hc & Hu & Hx); rewrite Hx;
    simpl in *.
  2:{ intros H; simplify_eq. exists []. simpl. rewrite app_nil_r.
      unfold idsOf, chunkTotal. simpl.
      split; [repeat split; auto with lia|apply requestsOf_nil]. }
  destruct (decide (String.length fullText = 0)) as [Hempty|Hfull]; simpl.
  { intros H; simplify_eq. exists []. simpl. rewrite app_nil_r.
    unfold idsOf, chunkTotal. simpl.
    split; [repeat split; auto with lia|apply requestsOf_nil]. }
  set (chunks := IngestionXenova.splitText env splitterOptions fullText).
  destruct (decide (length chunks = 0)) as [Hnone|Hsome]; simpl.
  { intros H; simplify_eq. exists []. simpl. rewrite app_nil_r.
    unfold idsOf, chunkTotal. simpl.
    split; [repeat split; auto with lia|apply requestsOf_nil]. }
  match goal with
  | |- context [IngestionXenova.generateEmbeddingsXenova env chunks ?w1] =>
      destruct (IngestionXenova.generateEmbeddingsXenova env chunks w1)
        as [[embs|msg] w3] eqn:He
  end.
  2:{ apply local_generateEmbeddings_throws in He as [Hc' Hu']. simpl in *.
      intros H; simplify_eq. exists []. simpl. rewrite app_nil_r.
      split; [repeat split; congruence|apply requestsOf_nil]. }
  apply local_generateEmbeddings_returns
    in He as (Hc' & Hu' & tensor & Htensor & Hlen & ->).
  simpl in *.
  destruct (IngestionXenova.chroma_rejects env
              (upsertRequest fileName chunks
                 (map IngestionXenova.data (take (length chunks) tensor))))
    as [msg|] eqn:Hrej; simpl;
    intros H; simplify_eq; simpl;
    exists [upsertRequest fileName chunks
              (map IngestionXenova.data (take (length chunks) tensor))]; simpl;
    rewrite Hrej, Hc', Hu', Hc, Hu.
  all: split;
    [|apply requestsOf_one; exists chunks, tensor;
      unfold IngestionXenova.documentChunks; rewrite Hx; simpl;
      by rewrite !decide_False by done].
  - done.
  - repeat split; auto; try (by rewrite upsertRequest_eq).
    all: unfold chunkTotal; simpl; lia.
Qed.

Lemma local_ingestLoop_ran env files n w r w' :
  IngestionXenova.ingestLoop env files n w = (r, w') →
  ∃ reqs,
    ran (IngestionXenova.chroma_rejects env)
        (IngestionXenova.planned env files) n w r w' reqs ∧
    requestsOf (IngestionXenova.requestOf env) files reqs.
Proof.
  revert n w. induction files as [|fileName files IH]; intros n w.
  - simpl. io_unfold. intros H; simplify_eq. exists [].
    split; [apply ran_nil|apply requestsOf_nil].
  - rewrite local_planned_cons. cbn [IngestionXenova.ingestLoop].
    unfold mbind, IO_bind.
    destruct (IngestionXenova.ingestFile env fileName n w) as [[m|msg] w1] eqn:Hfile;
      apply local_ingestFile_ran in Hfile as (reqs1 & Hran1 & Hreq1).
    + intros Hloop. apply IH in Hloop as (reqs2 & Hran2 & Hreq2).
      exists (reqs1 ++ reqs2). split.
      * eapply ran_app; eauto.
      * by apply (requestsOf_app _ [fileName] files).
    + intros H; simplify_eq. exists reqs1. split.
      * by apply ran_throws_app.
      * by apply (requestsOf_weaken _ [fileName] files).
Qed.

(** ** The local pipeline, a whole run *)

Lemma local_ingestDocuments_spec env w :
  ∃ res w' reqs,
    IngestionXenova.ingestDocumentsXenova env w = (Returns res, w') ∧
    upserts w' = upserts w ++ reqs ∧
    collection w' = stored (IngestionXenova.chroma_rejects env) reqs (collection w) ∧
    extractor w' = false ∧
    match IngestionXenova.chroma_getOrCreateCollection env
            IngestionXenova.COLLECTION_NAME with
    | Throws _ =>
        reqs = [] ∧
        res = resultOf (Throws ("Failed to connect to ChromaDB. Ensure the service is running at "
                                +:+ IngestionXenova.CHROMA_HOST env))
    | Returns _ =>
        match IngestionXenova.readdir env (IngestionXenova.DOCUMENTS_DIR env) with
        | Throws message => reqs = [] ∧ res = resultOf (Throws message)
        | Returns listing =>
            if decide (length (pdfFiles listing) = 0) then
              reqs = [] ∧
              res = resultOf (Throws ("No PDF files found in the directory: "
                                      +:+ IngestionXenova.DOCUMENTS_DIR env))
            else
              requestsOf (IngestionXenova.requestOf env) (pdfFiles listing) reqs ∧
              ∃ r, ran (IngestionXenova.chroma_rejects env)
                       (IngestionXenova.planned env (pdfFiles listing)) 0 w r w' reqs ∧
                   res = resultOf r
        end
    end.
Proof.
  unfold IngestionXenova.ingestDocumentsXenova, IngestionXenova.getOrCreateCollection.
  io_unfold. simpl.
  destruct (IngestionXenova.chroma_getOrCreateCollection _ _) as [[]|msg]; simpl.
  2:{ eexists _, _, []. rewrite app_nil_r. split; [reflexivity|].
      destruct (extractor w) eqn:Hext; simpl; eauto 10. }
  destruct (IngestionXenova.readdir _ _) as [listing|msg]; simpl.
  2:{ eexists _, _, []. rewrite app_nil_r. split; [reflexivity|].
      destruct (extractor w) eqn:Hext; simpl; eauto 10. }
  fold (pdfFiles listing).
  destruct (decide (length (pdfFiles listing) = 0)) as [Hnone|Hsome]; simpl.
  { eexists _, _, []. rewrite app_nil_r. split; [reflexivity|].
    destruct (extractor w) eqn:Hext; simpl; eauto 10. }
  match goal with
  | |- context [IngestionXenova.ingestLoop env _ 0 ?w1] =>
      destruct (IngestionXenova.ingestLoop env (pdfFiles listing) 0 w1)
        as [r w2] eqn:Hloop
  end.
  apply local_ingestLoop_ran in Hloop as (reqs & Hran & Hreqs).
  destruct Hran as (Hu & Hc & Hr). simpl in Hu, Hc.
  destruct r as [m|msg]; simpl; eexists _, _, reqs;
    (split; [reflexivity|]); destruct (extractor w2) eqn:Hext; simpl;
    (split; [done|]); (split; [done|]); (split; [done|]); (split; [done|]).
  1,2: exists (Returns m); split; [|done]; unfold ran; by repeat (split; [done|]).
  1,2: exists (Throws msg); split; [|done]; unfold ran; by repeat (split; [done|]).
Qed.

(** ** Either pipeline, a whole run *)

(** A run always resolves to a result, never throws, and changes the
    collection only through the requests the store accepts. *)
Lemma ingest_spec p w :
  ∃ res w' reqs,
    ingest p w = (Returns res, w') ∧
    upserts w' = upserts w ++ reqs ∧
    collection w' = stored (rejectsOf p) reqs (collection w) ∧
    match connectionOf p with
    | Throws _ =>
        reqs = [] ∧
        res = resultOf (Throws ("Failed to connect to ChromaDB. Ensure the service is running at "
                                +:+ hostOf p))
    | Returns _ =>
        match listingOf p with
        | Throws message => reqs = [] ∧ res = resultOf (Throws message)
        | Returns listing =>
            if decide (length (pdfFiles listing) = 0) then
              reqs = [] ∧ res = noPdfFiles p
            else
              requestsOf (requestFor p) (pdfFiles listing) reqs ∧
              ∃ r, ran (rejectsOf p) (plannedOf p (pdfFiles listing)) 0 w r w' reqs ∧
                   res = resultOf r
        end
    end.
Proof.
  destruct p as [env|env]; simpl.
  - apply cloud_ingestDocuments_spec.
  - destruct (local_ingestDocuments_spec env w)
      as (res & w' & reqs & Hrun & Hu & Hc & _ & Hcases).
    by exists res, w', reqs.
Qed.

Lemma pdfFiles_nil listing :
  (∀ file, file ∈ listing → endsWith file ".pdf" = false) →
  pdfFiles listing = [].
Proof.
  intros Hnone. unfold pdfFiles. induction listing as [|file listing IH]; [done|].
  rewrite filter_cons. rewrite (Hnone file) by set_solver.
  case_decide; [done|]. apply IH. intros f Hf. apply Hnone. set_solver.
Qed.

(** C6: when the documents directory holds no file whose name ends in
    [.pdf] (and the collection and the directory can be reached), either
    pipeline resolves, without throwing, to [success = false], [count = 0]
    and the error [No PDF files found in the directory: ...], and the store
    receives no upsert. *)
Theorem no_pdf_files_is_reported_not_thrown (p : Pipeline) (w : World)
    (listing : list string) :
  connectionOf p = Returns () →
  listingOf p = Returns listing →
  (∀ file, file ∈ listing → endsWith file ".pdf" = false) →
  ∃ w',
    ingest p w
    = (Returns {| success := false; count := 0;
                  error := Some ("No PDF files found in the directory: "
                                 +:+ directoryOf p) |}, w') ∧
    upserts w' = upserts w ∧
    collection w' = collection w.
Proof.
  intros Hconn Hlist Hnone.
  destruct (ingest_spec p w) as (res & w' & reqs & Hrun & Hu & Hc & Hcases).
  rewrite Hconn, Hlist, (pdfFiles_nil _ Hnone) in Hcases. simpl in Hcases.
  destruct Hcases as [-> ->]. exists w'.
  rewrite app_nil_r in Hu. by repeat split.
Qed.

Lemma no_pdf_files_is_reported_not_thrown_witness :
  ∃ w',
    ingest (Local (localEnv ["notes.txt"; "README.md"] sampleTensor)) emptyWorld
    = (Returns {| success := false; count := 0;
                  error := Some "No PDF files found in the directory: /app/documents" |},
       w') ∧
    upserts w' = [] ∧
    collection w' = ∅.
Proof.
  apply (no_pdf_files_is_reported_not_thrown
           (Local (localEnv ["notes.txt"; "README.md"] sampleTensor))
           emptyWorld ["notes.txt"; "README.md"]).
  - reflexivity.
  - reflexivity.
  - intros file Hfile.
    apply elem_of_cons in Hfile as [->|Hfile]; [reflexivity|].
    apply elem_of_cons in Hfile as [->|Hfile]; [reflexivity|].
    by apply elem_of_nil in Hfile.
Defined.

(** ** File names *)

Lemma string_length_app (s1 s2 : string) :
  String.length (s1 +:+ s2) = String.length s1 + String.length s2.
Proof. induction s1 as [|a s1 IH]; simpl; [done|]. by rewrite IH. Qed.

Lemma substring_all (s : string) : String.substring 0 (String.length s) s = s.
Proof. induction s as [|a s IH]; simpl; [done|]. by rewrite IH. Qed.

Lemma substring_app_r (s1 s2 : string) :
  String.substring (String.length s1) (String.length s2) (s1 +:+ s2) = s2.
Proof. induction s1 as [|a s1 IH]; simpl; [apply substring_all|done]. Qed.

Lemma substring_split (s : string) (m : nat) :
  m ≤ String.length s →
  s = String.substring 0 m s +:+ String.substring m (String.length s - m) s.
Proof.
  revert m. induction s as [|a s IH]; intros [|m] Hm; simpl in *; try lia.
  - done.
  - by rewrite substring_all.
  - change (String a ?x +:+ ?y) with (String a (x +:+ y)).
    f_equal. rewrite <- (IH m) at 1 by lia.
    revert m Hm. clear IH. induction s as [|b s IH]; intros [|m] Hm; simpl in *;
      try lia; try done.
Qed.

Lemma endsWith_true (s suffix : string) :
  endsWith s suffix = true ↔ ∃ stem, s = stem +:+ suffix.
Proof.
  unfold endsWith. rewrite andb_true_iff, !bool_decide_eq_true. split.
  - intros [Hlen Hsub].
    exists (String.substring 0 (String.length s - String.length suffix) s).
    rewrite <- Hsub at 2.
    replace (String.length suffix)
      with (String.length s - (String.length s - String.length suffix)) at 3 by lia.
    apply substring_split. lia.
  - intros [stem ->]. rewrite string_length_app. split; [lia|].
    replace (String.length stem + String.length suffix - String.length suffix)
      with (String.length stem) by lia.
    apply substring_app_r.
Qed.

Lemma endsWith_suffix (stem ext suffix : string) :
  String.length ext = String.length suffix →
  endsWith (stem +:+ ext) suffix = bool_decide (ext = suffix).
Proof.
  intros Hlen. unfold endsWith. rewrite string_length_app, bool_decide_true by lia.
  replace (String.length stem + String.length ext - String.length suffix)
    with (String.length stem) by lia.
  by rewrite <- Hlen, substring_app_r.
Qed.

Lemma toLowerCase_length (s : string) :
  String.length (toLowerCase s) = String.length s.
Proof. induction s as [|a s IH]; simpl; [done|]. by rewrite IH. Qed.

Lemma elem_of_pdfFiles file listing :
  file ∈ pdfFiles listing ↔ file ∈ listing ∧ ∃ stem, file = stem +:+ ".pdf".
Proof.
  unfold pdfFiles. rewrite list_elem_of_filter, endsWith_true. tauto.
Qed.

(** C10: both pipelines iterate only over the files of the listing whose
    names end with the exact suffix [.pdf]: every request a run sends to
    the store is the request for such a file.  A listing whose names all
    end in a differently-cased variant of [.pdf] (such as [.PDF]) has no
    matching file: the run resolves to the [No PDF files found] failure and
    sends nothing to the store. *)
Theorem only_lowercase_pdf_suffix_is_enumerated (p : Pipeline) (w : World)
    (listing : list string) :
  connectionOf p = Returns () →
  listingOf p = Returns listing →
  ∃ res w' reqs,
    ingest p w = (Returns res, w') ∧
    upserts w' = upserts w ++ reqs ∧
    Forall (λ req, ∃ stem, stem +:+ ".pdf" ∈ listing ∧
                   requestFor p (stem +:+ ".pdf") req) reqs ∧
    ((∀ file, file ∈ listing →
        ∃ stem ext, file = stem +:+ ext ∧ toLowerCase ext = ".pdf" ∧ ext ≠ ".pdf") →
     res = {| success := false; count := 0;
              error := Some ("No PDF files found in the directory: "
                             +:+ directoryOf p) |} ∧
     reqs = []).
Proof.
  intros Hconn Hlist.
  destruct (ingest_spec p w) as (res & w' & reqs & Hrun & Hu & Hc & Hcases).
  rewrite Hconn, Hlist in Hcases.
  exists res, w', reqs. split; [done|]. split; [done|].
  destruct (decide (length (pdfFiles listing) = 0)) as [Hnone|Hsome].
  - destruct Hcases as [-> ->]. split; [apply Forall_nil_2|]. done.
  - destruct Hcases as [Hreqs _]. split.
    + eapply Forall_impl; [exact (requestsOf_Forall _ _ _ Hreqs)|].
      intros req (f & Hf & Hreq).
      apply elem_of_pdfFiles in Hf as [Hin [stem ->]]. by exists stem.
    + intros Hvariants. exfalso. apply Hsome.
      rewrite (pdfFiles_nil listing); [done|].
      intros file Hfile.
      destruct (Hvariants file Hfile) as (stem & ext & -> & Hlow & Hne).
      rewrite endsWith_suffix.
      * by apply bool_decide_eq_false.
      * by rewrite <- (toLowerCase_length ext), Hlow.
Qed.

Lemma only_lowercase_pdf_suffix_is_enumerated_witness :
  ∃ w',
    ingest (Cloud (cloudEnv ["REPORT.PDF"; "Policy.Pdf"] sampleService)) emptyWorld
    = (Returns {| success := false; count := 0;
                  error := Some "No PDF files found in the directory: /app/documents" |},
       w') ∧
    upserts w' = [].
Proof.
  destruct (only_lowercase_pdf_suffix_is_enumerated
              (Cloud (cloudEnv ["REPORT.PDF"; "Policy.Pdf"] sampleService))
              emptyWorld ["REPORT.PDF"; "Policy.Pdf"] eq_refl eq_refl)
    as (res & w' & reqs & Hrun & Hu & _ & Hvariants).
  destruct Hvariants as [-> ->].
  - intros file Hfile.
    apply elem_of_cons in Hfile as [->|Hfile]; [by exists "REPORT", ".PDF"|].
    apply elem_of_cons in Hfile as [->|Hfile]; [by exists "Policy", ".Pdf"|].
    by apply elem_of_nil in Hfile.
  - by exists w'.
Defined.

(** A directory that holds only upper-case [.PDF] names. *)
Example uppercase_pdf_is_not_enumerated :
  (ingest (Local (localEnv ["REPORT.PDF"; "Policy.Pdf"] sampleTensor)) emptyWorld).1
  = Returns {| success := false; count := 0;
               error := Some "No PDF files found in the directory: /app/documents" |}.
Proof. vm_compute. reflexivity. Qed.

(** ** The chat route *)

(** C8: a chat request whose body has no [query] field, or an empty one,
    is answered with status 400, and the handler does nothing else: it does
    not call [runRAGChatXenova], so no embedding, retrieval or generation
    call is issued. *)
Theorem empty_or_missing_query_is_a_client_error
    (runRAGChatXenova : ChatRoute.JSON → Outcome ChatRoute.Stream)
    (template : ChatRoute.JSON → string)
    (value : ChatRoute.JSON) (query : option ChatRoute.JSON) :
  ChatRoute.destructure_query value = Returns query →
  query = None ∨ query = Some (ChatRoute.JString EmptyString) →
  ChatRoute.POST runRAGChatXenova template (Returns value)
  = ({| ChatRoute.status := 400;
        ChatRoute.headers := [];
        ChatRoute.body :=
          ChatRoute.JsonBody [("error", "Missing query parameter in request body.")] |},
     []).
Proof.
  intros Hquery Hempty. unfold ChatRoute.POST. rewrite Hquery.
  by destruct Hempty as [-> | ->].
Qed.

Lemma empty_or_missing_query_is_a_client_error_witness :
  ChatRoute.POST (λ _, Returns ["answer"]) (λ _, "query")
    (Returns (ChatRoute.JObject [("query", ChatRoute.JString EmptyString);
                                 ("user", ChatRoute.JString "anu")]))
  = ({| ChatRoute.status := 400;
        ChatRoute.headers := [];
        ChatRoute.body :=
          ChatRoute.JsonBody [("error", "Missing query parameter in request body.")] |},
     []).
Proof.
  apply (empty_or_missing_query_is_a_client_error _ _ _
           (Some (ChatRoute.JString EmptyString))).
  - reflexivity.
  - right. reflexivity.
Defined.

(** The handler calls [runRAGChatXenova] at most once, and only with a
    truthy [query]. *)
Lemma chat_calls_need_a_query runRAGChatXenova template req_json query :
  ChatRoute.Call_runRAGChatXenova query
    ∈ (ChatRoute.POST runRAGChatXenova template req_json).2 →
  ChatRoute.falsy query = false ∧
  ∃ value, req_json = Returns value ∧
           ChatRoute.destructure_query value = Returns (Some query).
Proof.
  unfold ChatRoute.POST, ChatRoute.serverError, ChatRoute.missingQuery.
  destruct req_json as [value|?]; simpl; [|set_solver].
  destruct (ChatRoute.destructure_query value) as [[q|]|?] eqn:Hd; simpl;
    [|set_solver..].
  destruct (ChatRoute.falsy q) eqn:Hq; simpl; [set_solver|].
  destruct (runRAGChatXenova q); simpl; intros Hin.
  all: assert (query = q) as -> by set_solver.
  all: split; [done|]; by exists value.
Qed.

(** A body that is [null] has no fields to destructure: the handler
    answers with status 500, again without any call. *)
Example null_body_is_a_server_error :
  ChatRoute.POST (λ _, Returns ["answer"]) (λ _, "query") (Returns ChatRoute.JNull)
  = ({| ChatRoute.status := 500;
        ChatRoute.headers := [];
        ChatRoute.body :=
          ChatRoute.JsonBody
            [("error", "An error occurred during Xenova RAG processing.");
             ("details", "Cannot destructure property 'query' of null.")] |},
     [ChatRoute.Console
        (ConsoleError
           "Xenova Chat API Error: Cannot destructure property 'query' of null.")]).
Proof. reflexivity. Qed.

(** ** The requests of a run *)

Lemma ingest_requests p w :
  ∃ res reqs,
    (ingest p w).1 = Returns res ∧
    upserts (ingest p w).2 = upserts w ++ reqs ∧
    collection (ingest p w).2 = stored (rejectsOf p) reqs (collection w) ∧
    Forall (λ req, ∃ fileName, requestFor p fileName req) reqs.
Proof.
  destruct (ingest_spec p w) as (res & w' & reqs & Hrun & Hu & Hc & Hcases).
  exists res, reqs. rewrite Hrun. simpl. repeat (split; [done|]).
  destruct (connectionOf p); [|destruct Hcases as [-> _]; constructor].
  destruct (listingOf p) as [listing|]; [|destruct Hcases as [-> _]; constructor].
  destruct (decide _); [destruct Hcases as [-> _]; constructor|].
  destruct Hcases as [Hreqs _].
  eapply Forall_impl; [exact (requestsOf_Forall _ _ _ Hreqs)|].
  intros req (f & _ & Hreq). by exists f.
Qed.

Lemma ingest_new_requests p w req :
  req ∈ drop (length (upserts w)) (upserts (ingest p w).2) →
  ∃ fileName, requestFor p fileName req.
Proof.
  destruct (ingest_requests p w) as (res & reqs & _ & Hu & _ & Hreqs).
  rewrite Hu, drop_app_length. intros Hin.
  by apply (proj1 (Forall_forall _ _) Hreqs).
Qed.

(** Every request of a run is built for one of the PDF files of the
    listing. *)
Lemma ingest_new_requests_listed p w req :
  req ∈ drop (length (upserts w)) (upserts (ingest p w).2) →
  ∃ listing fileName,
    listingOf p = Returns listing ∧
    fileName ∈ pdfFiles listing ∧
    requestFor p fileName req.
Proof.
  destruct (ingest_spec p w) as (res & w' & reqs & Hrun & Hu & _ & Hcases).
  rewrite Hrun. simpl. rewrite Hu, drop_app_length. intros Hin.
  destruct (connectionOf p);
    [|destruct Hcases as [-> _]; by apply elem_of_nil in Hin].
  destruct (listingOf p) as [listing|];
    [|destruct Hcases as [-> _]; by apply elem_of_nil in Hin].
  destruct (decide _); [destruct Hcases as [-> _]; by apply elem_of_nil in Hin|].
  destruct Hcases as [Hreqs _]. apply requestsOf_Forall in Hreqs.
  destruct (proj1 (Forall_forall _ _) Hreqs req Hin) as (fileName & Hfile & Hreq).
  by exists listing, fileName.
Qed.

(** The documents of a request are the chunks of its file, as the
    splitter returned them. *)
Lemma requestFor_planned p fileName req :
  requestFor p fileName req →
  plannedOf p [fileName] = [(fileName, documents req)].
Proof.
  destruct p as [env|env]; simpl.
  - intros (chunks & es & Hchunks & _ & _ & ->).
    unfold Ingestion.planned. simpl. rewrite Hchunks. simpl.
    by rewrite upsertRequest_eq.
  - intros (chunks & tensor & Hchunks & _ & _ & ->).
    unfold IngestionXenova.planned. simpl. rewrite Hchunks. simpl.
    by rewrite upsertRequest_eq.
Qed.

(** The request either pipeline builds for a document is the one
    [upsertRequest] builds from the document's chunks. *)
Lemma requestFor_upsertRequest p fileName req :
  requestFor p fileName req →
  ∃ embs, req = upsertRequest fileName (documents req) embs.
Proof.
  destruct p as [env|env]; simpl.
  - intros (chunks & es & _ & _ & _ & ->).
    exists (map Ingestion.values es). by rewrite !upsertRequest_eq.
  - intros (chunks & tensor & _ & _ & _ & ->).
    exists (map IngestionXenova.data (take (length chunks) tensor)).
    by rewrite !upsertRequest_eq.
Qed.

(** ** Embeddings *)

(** The local provider returns one vector per text whatever the tensor
    holds: the loop pushes once per text, and throws if a row is missing. *)
Lemma local_embeddings_length env texts w out :
  (IngestionXenova.generateEmbeddingsXenova env texts w).1 = Returns out →
  length out = length texts.
Proof.
  destruct (IngestionXenova.generateEmbeddingsXenova env texts w) as [r w'] eqn:Hrun.
  simpl. intros ->.
  apply local_generateEmbeddings_returns
    in Hrun as (_ & _ & tensor & _ & Hlen & ->).
  rewrite length_map, length_take. lia.
Qed.

(** The cloud provider passes on the embeddings of the response, in the
    order of the response, and accepts no missing or empty response. *)
Lemma cloud_embeddings_of_response env texts w out :
  (Ingestion.generateEmbeddings env texts w).1 = Returns out →
  ∃ es, Ingestion.embedContent env Ingestion.EMBEDDING_MODEL
          (Ingestion.contentsOf texts)
        = Returns {| Ingestion.response_embeddings := Some es |} ∧
        es ≠ [] ∧ out = map Ingestion.values es.
Proof.
  destruct (Ingestion.generateEmbeddings env texts w) as [r w'] eqn:Hrun.
  simpl. intros ->.
  by apply cloud_generateEmbeddings_returns in Hrun as (_ & _ & Hes).
Qed.

(** C4: an embedding provider is to return, for [n] texts, exactly [n]
    vectors, in the order of the texts.  The cloud provider does not: it
    checks that the response carries embeddings, not how many.  When the
    service answers a batch of three texts with one embedding,
    [generateEmbeddings] returns that one vector.  The local provider on
    the same texts returns three vectors also when the tensor holds a row
    more, and throws when the tensor holds a row less. *)
Theorem cloud_provider_returns_one_vector_for_three_texts :
  let texts := ["alpha"; "beta"; "gamma"] in
  let cloud := embedTexts (Cloud (cloudEnv [] singleService)) texts emptyWorld in
  let long := embedTexts (Local (localEnv [] longTensor)) texts emptyWorld in
  let short := embedTexts (Local (localEnv [] shortTensor)) texts emptyWorld in
  cloud.1 = Returns [[1%float]] ∧
  long.1 = Returns (map sampleEmbed texts) ∧
  ∃ message, short.1 = Throws message.
Proof. vm_compute. repeat split. by eexists. Qed.

(** ** Alignment of the upsert arrays *)

(** The three arrays the pipelines build themselves are aligned whatever
    the embedding runtime returns. *)
Lemma requestFor_ids_documents_metadatas p fileName req :
  requestFor p fileName req →
  length (ids req) = length (documents req) ∧
  length (metadatas req) = length (documents req).
Proof.
  intros Hreq. apply requestFor_upsertRequest in Hreq as [embs ->].
  rewrite upsertRequest_eq. simpl. by rewrite !length_map, length_seq.
Qed.

(** The local pipeline sends four arrays of one length whatever the
    tensor holds: its provider returns one vector per chunk or throws. *)
Lemma local_run_arrays_have_one_length env w req :
  req ∈ drop (length (upserts w)) (upserts (ingest (Local env) w).2) →
  length (ids req) = length (documents req) ∧
  length (embeddings req) = length (documents req) ∧
  length (metadatas req) = length (documents req).
Proof.
  intros Hreq. apply ingest_new_requests in Hreq as [fileName Hreq].
  destruct (requestFor_ids_documents_metadatas _ _ _ Hreq) as [Hids Hmds].
  repeat split; try done.
  destruct Hreq as (chunks & tensor & _ & _ & Hlen & ->).
  rewrite upsertRequest_eq. simpl. rewrite length_map, length_take. lia.
Qed.

(** C3: the four arrays of an upsert request are to have one length,
    position [i] of each belonging to chunk [i].  The cloud pipeline
    builds [ids], [documents] and [metadatas] from the chunks, but takes
    [embeddings] from the response of the service without comparing its
    length with the number of chunks.  When the service answers the three
    chunks of [a.pdf] with one embedding, the run hands three ids, one
    embedding, three documents and three metadata records to
    [collection.upsert] and reports success with [count = 3].  The local
    pipeline, given a tensor with a row less than there are chunks, throws
    before the upsert: the run fails and sends nothing. *)
Theorem cloud_run_sends_one_embedding_for_three_chunks :
  let cloud := ingest (Cloud (cloudEnv ["a.pdf"] singleService)) emptyWorld in
  let local := ingest (Local (localEnv ["a.pdf"] shortTensor)) emptyWorld in
  cloud.1 = Returns {| success := true; count := 3; error := None |} ∧
  upserts cloud.2
  = [{| ids := ["a.pdf-0"; "a.pdf-1"; "a.pdf-2"];
        embeddings := [[1%float]];
        documents := ["alpha"; "beta"; "gamma"];
        metadatas := [{| source := "a.pdf"; chunk_index := 0 |};
                      {| source := "a.pdf"; chunk_index := 1 |};
                      {| source := "a.pdf"; chunk_index := 2 |}] |}] ∧
  upserts local.2 = [] ∧
  ∃ message,
    local.1 = Returns {| success := false; count := 0; error := Some message |}.
Proof. vm_compute. repeat split. by eexists. Qed.

(** ** The rows of a run *)

Lemma elem_of_concat {A} (x : A) (ls : list (list A)) :
  x ∈ concat ls ↔ ∃ l, x ∈ l ∧ l ∈ ls.
Proof.
  induction ls as [|l ls IH]; simpl.
  - split; [by intros ?%elem_of_nil|]. intros (l & _ & ?%elem_of_nil). done.
  - rewrite elem_of_app, IH. split.
    + intros [?|(l' & ? & ?)]; [exists l|exists l']; split; try done;
        [apply list_elem_of_here|by apply list_elem_of_further].
    + intros (l' & Hx & [->|?]%elem_of_cons); [by left|right; by exists l'].
Qed.

Lemma stored_notin rejects reqs (c : gmap string Row) id :
  id ∉ concat (map ids reqs) → stored rejects reqs c !! id = c !! id.
Proof.
  revert c. induction reqs as [|req reqs IH]; intros c Hid; [done|].
  simpl in Hid. apply not_elem_of_app in Hid as [Hreq Hrest].
  change (stored rejects (req :: reqs) c)
    with (stored rejects reqs (match rejects req with
                               | Some _ => c
                               | None => apply_upsert req c
                               end)).
  rewrite IH by done. destruct (rejects req); [done|].
  by apply write_rows_notin.
Qed.

(** When no id is written twice, the collection holds, for every
    accepted request, the rows of that request. *)
Lemma stored_lookup rejects reqs (c : gmap string Row) req i id :
  NoDup (concat (map ids reqs)) →
  req ∈ reqs → rejects req = None → ids req !! i = Some id →
  stored rejects reqs c !! id = Some (row_at req i).
Proof.
  revert c. induction reqs as [|r reqs IH]; intros c Hnd Hin Hacc Hid.
  { by apply elem_of_nil in Hin. }
  simpl in Hnd. apply NoDup_app in Hnd as (Hr & Hdisj & Hrest).
  change (stored rejects (r :: reqs) c)
    with (stored rejects reqs (match rejects r with
                               | Some _ => c
                               | None => apply_upsert r c
                               end)).
  apply elem_of_cons in Hin as [->|Hin].
  - rewrite stored_notin, Hacc.
    + by apply (write_rows_lookup r 0 (ids r) c i id).
    + apply Hdisj. by eapply list_elem_of_lookup_2.
  - by apply IH.
Qed.

Lemma stored_dom rejects reqs (c : gmap string Row) :
  dom (stored rejects reqs c)
  = list_to_set (concat (map ids (filter (λ req, rejects req = None) reqs))) ∪ dom c.
Proof.
  revert c. induction reqs as [|req reqs IH]; intros c; [set_solver|].
  change (stored rejects (req :: reqs) c)
    with (stored rejects reqs (match rejects req with
                               | Some _ => c
                               | None => apply_upsert req c
                               end)).
  rewrite IH, filter_cons. destruct (rejects req) eqn:Hrej.
  - rewrite decide_False by done. done.
  - rewrite decide_True by done. simpl. unfold apply_upsert.
    rewrite write_rows_dom, list_to_set_app_L. set_solver.
Qed.

(** Requests built for different files write different ids. *)
Lemma requests_ids_NoDup p files reqs :
  NoDup files → requestsOf (requestFor p) files reqs →
  NoDup (concat (map ids reqs)).
Proof.
  intros Hfiles (fs & Hsub & Hall).
  apply (sublist_NoDup fs) in Hfiles; [|done]. clear Hsub files.
  induction Hall as [|f req fs reqs Hreq Hall IH]; [constructor|].
  apply NoDup_cons in Hfiles as [Hf Hfs]. simpl.
  apply requestFor_upsertRequest in Hreq as [embs Hreq].
  apply NoDup_app. split; [rewrite Hreq; apply upsertRequest_ids_NoDup|].
  split; [|by apply IH].
  intros id Hid Hlater. rewrite Hreq, upsertRequest_eq in Hid. simpl in Hid.
  apply list_elem_of_fmap in Hid as (i & -> & _).
  apply elem_of_concat in Hlater as (l & Hl & Hin).
  apply list_elem_of_fmap in Hin as (req' & -> & Hreq').
  apply list_elem_of_lookup in Hreq' as [k Hk].
  destruct (Forall2_lookup_r _ _ _ _ _ Hall Hk) as (f' & Hf' & Hbuilt).
  apply requestFor_upsertRequest in Hbuilt as [embs' Hbuilt].
  rewrite Hbuilt, upsertRequest_eq in Hl. simpl in Hl.
  apply list_elem_of_fmap in Hl as (j & Heq & _).
  apply rowId_eq in Heq as [-> _].
  apply Hf. by eapply list_elem_of_lookup_2.
Qed.

Lemma pdfFiles_NoDup listing : NoDup listing → NoDup (pdfFiles listing).
Proof. apply NoDup_filter. Qed.

(** The requests of a run write every id once, when the directory lists
    every name once. *)
Lemma ingest_requests_NoDup p w :
  (∀ listing, listingOf p = Returns listing → NoDup listing) →
  ∃ res reqs,
    (ingest p w).1 = Returns res ∧
    upserts (ingest p w).2 = upserts w ++ reqs ∧
    collection (ingest p w).2 = stored (rejectsOf p) reqs (collection w) ∧
    NoDup (concat (map ids reqs)).
Proof.
  intros Hlisting.
  destruct (ingest_spec p w) as (res & w' & reqs & Hrun & Hu & Hc & Hcases).
  exists res, reqs. rewrite Hrun. simpl. repeat (split; [done|]).
  destruct (connectionOf p); [|destruct Hcases as [-> _]; constructor].
  destruct (listingOf p) as [listing|]; [|destruct Hcases as [-> _]; constructor].
  destruct (decide _); [destruct Hcases as [-> _]; constructor|].
  destruct Hcases as [Hreqs _].
  eapply requests_ids_NoDup; [|exact Hreqs].
  by apply pdfFiles_NoDup, Hlisting.
Qed.

(** At the end of a run, the collection holds the rows of every request
    the store accepted during the run. *)
Lemma ingest_rows p w req i id :
  (∀ listing, listingOf p = Returns listing → NoDup listing) →
  req ∈ drop (length (upserts w)) (upserts (ingest p w).2) →
  rejectsOf p req = None →
  ids req !! i = Some id →
  collection (ingest p w).2 !! id = Some (row_at req i).
Proof.
  intros Hlisting Hreq Hacc Hid.
  destruct (ingest_requests_NoDup p w Hlisting) as (res & reqs & _ & Hu & Hc & Hnd).
  rewrite Hu, drop_app_length in Hreq. rewrite Hc.
  by apply stored_lookup.
Qed.

(** ** Successful and failed runs *)

(** A run that fails reports no chunk at all. *)
Lemma ingest_failure_count p w res :
  (ingest p w).1 = Returns res → success res = false → count res = 0.
Proof.
  destruct (ingest_spec p w) as (res' & w' & reqs & Hrun & _ & _ & Hcases).
  rewrite Hrun. simpl. intros [= <-] Hfail.
  destruct (connectionOf p); [|by destruct Hcases as [_ ->]].
  destruct (listingOf p) as [listing|]; [|by destruct Hcases as [_ ->]].
  destruct (decide _); [by destruct Hcases as [_ ->]|].
  destruct Hcases as (_ & r & _ & ->). by destruct r.
Qed.

(** A run that succeeds had every request accepted, sent one request per
    planned document, and reports the number of their chunks. *)
Lemma ingest_success p w res :
  (ingest p w).1 = Returns res → success res = true →
  ∃ listing reqs,
    listingOf p = Returns listing ∧
    upserts (ingest p w).2 = upserts w ++ reqs ∧
    collection (ingest p w).2 = stored (rejectsOf p) reqs (collection w) ∧
    Forall (λ req, rejectsOf p req = None) reqs ∧
    map ids reqs = idsOf (plannedOf p (pdfFiles listing)) ∧
    count res = chunkTotal (plannedOf p (pdfFiles listing)).
Proof.
  destruct (ingest_spec p w) as (res' & w' & reqs & Hrun & Hu & Hc & Hcases).
  rewrite Hrun. simpl. intros [= <-] Hok.
  destruct (connectionOf p); [|by destruct Hcases as [_ ->]].
  destruct (listingOf p) as [listing|]; [|by destruct Hcases as [_ ->]].
  destruct (decide _); [by destruct Hcases as [_ ->]|].
  destruct Hcases as (_ & r & Hran & ->). destruct r as [m|]; [|done].
  destruct Hran as (_ & _ & Hacc & Hids & ->).
  exists listing, reqs. by repeat split.
Qed.

Lemma stored_dom_accepted rejects reqs (c : gmap string Row) :
  Forall (λ req, rejects req = None) reqs →
  dom (stored rejects reqs c) = list_to_set (concat (map ids reqs)) ∪ dom c.
Proof.
  intros Hacc. rewrite stored_dom.
  assert (filter (λ req, rejects req = None) reqs = reqs) as ->; [|done].
  induction Hacc as [|req reqs Hreq _ IH]; [done|].
  rewrite filter_cons, decide_True by done. by rewrite IH.
Qed.



(** ** Row ids and metadata *)

(** C7: every request a run has the store accept is the request of one
    of the PDF files of the listing, and its documents are the chunks of
    that file in the order the splitter returned them.  The chunk at
    position [i] of them, counted from 0, is kept under the row id
    [{source}-{chunk_index}], where [source] is the file name and
    [chunk_index] is [i]; its metadata record has the two fields [source]
    and [chunk_index] with these values.  The directory is taken to list
    every name once. *)
Theorem chunk_row_id_and_metadata (p : Pipeline) (w : World) (req : UpsertRequest) :
  (∀ listing, listingOf p = Returns listing → NoDup listing) →
  req ∈ drop (length (upserts w)) (upserts (ingest p w).2) →
  rejectsOf p req = None →
  ∃ listing fileName,
    listingOf p = Returns listing ∧
    fileName ∈ pdfFiles listing ∧
    requestFor p fileName req ∧
    plannedOf p [fileName] = [(fileName, documents req)] ∧
    ∀ i chunk,
      documents req !! i = Some chunk →
      ids req !! i = Some (fileName +:+ "-" +:+ pretty i) ∧
      metadatas req !! i = Some {| source := fileName; chunk_index := i |} ∧
      collection (ingest p w).2 !! (fileName +:+ "-" +:+ pretty i)
      = Some {| row_embedding := embeddings req !! i;
                row_document := Some chunk;
                row_metadata := Some {| source := fileName; chunk_index := i |} |}.
Proof.
  intros Hlisting Hreq Hacc.
  destruct (ingest_new_requests_listed p w req Hreq)
    as (listing & fileName & Hlist & Hfile & Hbuilt).
  exists listing, fileName. repeat (split; [done|]).
  split; [by apply requestFor_planned|].
  apply requestFor_upsertRequest in Hbuilt as [embs Hbuilt].
  intros i chunk Hchunk.
  change (fileName +:+ "-" +:+ pretty i) with (rowId fileName i).
  apply lookup_lt_Some in Hchunk as Hi.
  assert (ids req !! i = Some (rowId fileName i)) as Hid
    by (rewrite Hbuilt; by apply upsertRequest_ids_lookup).
  assert (metadatas req !! i = Some {| source := fileName; chunk_index := i |}) as Hmd
    by (rewrite Hbuilt; by apply upsertRequest_metadatas_lookup).
  split; [done|]. split; [done|].
  rewrite (ingest_rows p w req i (rowId fileName i)) by done.
  unfold row_at. by rewrite Hchunk, Hmd.
Qed.

Lemma sample_listing_NoDup (listing : list string) (p : Pipeline) :
  bool_decide (NoDup listing) = true →
  listingOf p = Returns listing →
  ∀ listing', listingOf p = Returns listing' → NoDup listing'.
Proof.
  intros Hnd%bool_decide_eq_true Hp listing' Hp'.
  rewrite Hp in Hp'. by injection Hp' as <-.
Defined.

Lemma chunk_row_id_and_metadata_witness :
  let p := Local (localEnv ["a.pdf"; "b.pdf"] sampleTensor) in
  let req :=
    {| ids := ["a.pdf-0"; "a.pdf-1"; "a.pdf-2"];
       embeddings := [sampleEmbed "alpha"; sampleEmbed "beta"; sampleEmbed "gamma"];
       documents := ["alpha"; "beta"; "gamma"];
       metadatas := [{| source := "a.pdf"; chunk_index := 0 |};
                     {| source := "a.pdf"; chunk_index := 1 |};
                     {| source := "a.pdf"; chunk_index := 2 |}] |} in
  ∃ listing fileName,
    listingOf p = Returns listing ∧
    fileName ∈ pdfFiles listing ∧
    requestFor p fileName req ∧
    plannedOf p [fileName] = [(fileName, documents req)] ∧
    ∀ i chunk,
      documents req !! i = Some chunk →
      ids req !! i = Some (fileName +:+ "-" +:+ pretty i) ∧
      metadatas req !! i = Some {| source := fileName; chunk_index := i |} ∧
      collection (ingest p emptyWorld).2 !! (fileName +:+ "-" +:+ pretty i)
      = Some {| row_embedding := embeddings req !! i;
                row_document := Some chunk;
                row_metadata := Some {| source := fileName; chunk_index := i |} |}.
Proof.
  apply (chunk_row_id_and_metadata
           (Local (localEnv ["a.pdf"; "b.pdf"] sampleTensor)) emptyWorld
           {| ids := ["a.pdf-0"; "a.pdf-1"; "a.pdf-2"];
              embeddings := [sampleEmbed "alpha"; sampleEmbed "beta"; sampleEmbed "gamma"];
              documents := ["alpha"; "beta"; "gamma"];
              metadatas := [{| source := "a.pdf"; chunk_index := 0 |};
                            {| source := "a.pdf"; chunk_index := 1 |};
                            {| source := "a.pdf"; chunk_index := 2 |}] |}).
  - apply (sample_listing_NoDup ["a.pdf"; "b.pdf"]); reflexivity.
  - vm_compute. apply list_elem_of_here.
  - reflexivity.
Defined.

(** Scenario: one document [a.pdf] that splits into three chunks. *)
Example one_document_three_chunks :
  let run := ingest (Cloud (cloudEnv ["a.pdf"] sampleService)) emptyWorld in
  run.1 = Returns {| success := true; count := 3; error := None |} ∧
  map ids (upserts run.2) = [["a.pdf-0"; "a.pdf-1"; "a.pdf-2"]] ∧
  size (collection run.2) = 3.
Proof. vm_compute. done. Qed.

(** ** Re-ingestion *)



(** After the second run, [a.pdf-0] holds the embedding of the later
    service, and the collection still has four rows. *)
Example reingestion_overwrites_rows :
  let p1 := Cloud (cloudEnv ["a.pdf"; "b.pdf"] sampleService) in
  let p2 := Cloud (cloudEnv ["a.pdf"; "b.pdf"] laterService) in
  let w1 := (ingest p1 emptyWorld).2 in
  let w2 := (ingest p2 w1).2 in
  size (collection w1) = 4 ∧ size (collection w2) = 4 ∧
  row_embedding <$> collection w1 !! "a.pdf-0" = Some (Some (sampleEmbed "alpha")) ∧
  row_embedding <$> collection w2 !! "a.pdf-0" = Some (Some [2%float]).
Proof. vm_compute. done. Qed.

(** ** Failed runs *)

(** C9: a run that fails resolves to [success = false] with [count = 0],
    however many chunks the store accepted before the failure, and nothing
    is rolled back: at the end of the run the collection holds the rows of
    every request the store accepted during the run.  The directory is
    taken to list every name once. *)
Theorem failed_run_reports_zero_and_keeps_rows (p : Pipeline) (w : World)
    (res : IngestResult) :
  (∀ listing, listingOf p = Returns listing → NoDup listing) →
  (ingest p w).1 = Returns res →
  success res = false →
  count res = 0 ∧
  ∀ req i id,
    req ∈ drop (length (upserts w)) (upserts (ingest p w).2) →
    rejectsOf p req = None →
    ids req !! i = Some id →
    collection (ingest p w).2 !! id = Some (row_at req i).
Proof.
  intros Hlisting Hrun Hfail. split.
  - by apply (ingest_failure_count p w).
  - intros req i id Hreq Hacc Hid. by apply ingest_rows.
Qed.

Lemma failed_run_reports_zero_and_keeps_rows_witness :
  let p := Local (localEnv ["a.pdf"; "b.pdf"] failingTensor) in
  0 = 0 ∧
  ∀ req i id,
    req ∈ drop 0 (upserts (ingest p emptyWorld).2) →
    rejectsOf p req = None →
    ids req !! i = Some id →
    collection (ingest p emptyWorld).2 !! id = Some (row_at req i).
Proof.
  apply (failed_run_reports_zero_and_keeps_rows
           (Local (localEnv ["a.pdf"; "b.pdf"] failingTensor)) emptyWorld
           {| success := false; count := 0; error := Some "Out of memory" |}).
  - apply (sample_listing_NoDup ["a.pdf"; "b.pdf"]); reflexivity.
  - vm_compute. reflexivity.
  - reflexivity.
Defined.

(** The embedding of the second document fails after the three chunks of
    the first were written: the result counts none of them, and the three
    rows are in the collection. *)
Example failure_after_first_document :
  let run := ingest (Cloud (cloudEnv ["a.pdf"; "b.pdf"] failingService)) emptyWorld in
  run.1 = Returns {| success := false; count := 0;
                     error := Some "429 Too Many Requests" |} ∧
  map ids (upserts run.2) = [["a.pdf-0"; "a.pdf-1"; "a.pdf-2"]] ∧
  size (collection run.2) = 3 ∧
  row_document <$> collection run.2 !! "a.pdf-2" = Some (Some "gamma").
Proof. vm_compute. done. Qed.

(** ** Documents without text *)

(** The local pipeline skips a document whose text is empty, or that
    yields no chunk, or that cannot be read: it warns, leaves the store and
    the running total as they are, and goes on with the next file. *)
Lemma local_empty_document_is_skipped env fileName files n w :
  IngestionXenova.documentChunks env fileName = None →
  ∃ w1 line,
    IngestionXenova.ingestLoop env (fileName :: files) n w
    = IngestionXenova.ingestLoop env files n w1 ∧
    collection w1 = collection w ∧
    upserts w1 = upserts w ∧
    last (console w1) = Some (ConsoleWarn line).
Proof.
  intros Hskip. cbn [IngestionXenova.ingestLoop].
  unfold IngestionXenova.ingestFile. io_unfold. simpl.
  match goal with
  | |- context [IngestionXenova.extractTextFromPdf env ?path ?w0] =>
      destruct (IngestionXenova.extractTextFromPdf env path w0)
        as [[fullText|msg] w2] eqn:Hx
  end; apply local_extractText_spec in Hx as (Hc & Hu & Hx); simpl in *.
  - unfold IngestionXenova.documentChunks in Hskip. rewrite Hx in Hskip.
    simpl in Hskip.
    destruct (decide (String.length fullText = 0)); simpl.
    { eexists _, _. split; [reflexivity|]. simpl.
      repeat split; try done. by rewrite last_snoc. }
    destruct (decide (length _ = 0)); [|done]. simpl.
    eexists _, _. split; [reflexivity|]. simpl.
    repeat split; try done. by rewrite last_snoc.
  - eexists _, _. split; [reflexivity|]. simpl.
    repeat split; try done. by rewrite last_snoc.
Qed.

(** The cloud pipeline has no such guard.  With an embedding service that
    answers an empty batch with no embedding, a document that yields no
    chunk, or that cannot be parsed, ends the loop with an exception. *)
Lemma cloud_empty_document_throws env fileName n w :
  (∀ es, Ingestion.embedContent env Ingestion.EMBEDDING_MODEL []
         = Returns {| Ingestion.response_embeddings := Some es |} → es = []) →
  Ingestion.documentChunks env fileName = Some [] ∨
  Ingestion.documentChunks env fileName = None →
  ∃ message w',
    Ingestion.ingestFile env fileName n w = (Throws message, w') ∧
    upserts w' = upserts w ∧ collection w' = collection w.
Proof.
  intros Hbatch Hempty.
  unfold Ingestion.ingestFile, Ingestion.extractTextFromPdf, Ingestion.chunkText,
    Ingestion.generateEmbeddings.
  unfold Ingestion.documentChunks in Hempty. io_unfold. simpl.
  destruct (Ingestion.loadPDF _ _) as [pdfData|parserError]; simpl.
  2:{ by eexists _, _. }
  destruct Hempty as [[= ->]|?]; [|done]. simpl.
  destruct (Ingestion.embedContent env Ingestion.EMBEDDING_MODEL [])
    as [[[[|e es]|]]|msg] eqn:Hes; simpl; try by eexists _, _.
  discriminate (Hbatch (e :: es) eq_refl).
Qed.

Lemma cloud_empty_document_ends_loop env fileName files n w :
  (∀ es, Ingestion.embedContent env Ingestion.EMBEDDING_MODEL []
         = Returns {| Ingestion.response_embeddings := Some es |} → es = []) →
  fileName ∈ files →
  Ingestion.documentChunks env fileName = Some [] ∨
  Ingestion.documentChunks env fileName = None →
  ∃ message w', Ingestion.ingestLoop env files n w = (Throws message, w').
Proof.
  intros Hbatch Hin Hempty. revert n w.
  induction files as [|f files IH]; intros n w; [by apply elem_of_nil in Hin|].
  cbn [Ingestion.ingestLoop]. unfold mbind, IO_bind.
  destruct (Ingestion.ingestFile env f n w) as [[m|message] w1] eqn:Hfile;
    [|by eexists _, _].
  apply elem_of_cons in Hin as [<-|Hin]; [|by apply IH].
  destruct (cloud_empty_document_throws env fileName n w Hbatch Hempty)
    as (message & w' & Hthrows & _).
  congruence.
Qed.

(** So one such document among the PDF files makes the whole cloud run
    fail, whatever the other documents are. *)
Lemma cloud_empty_document_fails_run env listing fileName w res :
  (∀ es, Ingestion.embedContent env Ingestion.EMBEDDING_MODEL []
         = Returns {| Ingestion.response_embeddings := Some es |} → es = []) →
  listingOf (Cloud env) = Returns listing →
  fileName ∈ pdfFiles listing →
  Ingestion.documentChunks env fileName = Some [] ∨
  Ingestion.documentChunks env fileName = None →
  (ingest (Cloud env) w).1 = Returns res →
  success res = false ∧ count res = 0.
Proof.
  intros Hbatch Hlisting Hin Hempty Hrun.
  destruct (success res) eqn:Hok;
    [|split; [done|by apply (ingest_failure_count (Cloud env) w)]].
  exfalso. revert Hrun Hok. simpl in *.
  unfold Ingestion.ingestDocuments, Ingestion.getOrCreateCollection.
  io_unfold. simpl.
  destruct (Ingestion.chroma_getOrCreateCollection _ _) as [[]|msg]; simpl;
    [|by intros [= <-]].
  rewrite Hlisting. simpl. fold (pdfFiles listing).
  destruct (decide (length (pdfFiles listing) = 0)); simpl; [by intros [= <-]|].
  match goal with
  | |- context [Ingestion.ingestLoop env _ 0 ?w1] =>
      destruct (cloud_empty_document_ends_loop env fileName
                  (pdfFiles listing) 0 w1 Hbatch Hin Hempty)
        as (message & w' & ->)
  end.
  simpl. by intros [= <-].
Qed.

(** C1: a document whose extraction or chunking yields nothing is to be
    skipped with a warning, the run going on with the next document and
    succeeding for the others.  The local pipeline does so; the cloud
    pipeline does not.  In a directory that holds [empty.pdf], a scanned
    PDF without text, before [a.pdf], the cloud run hands the empty chunk
    list to the embedding service, takes the empty answer for a failure
    and resolves to [success = false] with [count = 0]: no warning is
    printed and [a.pdf] is never ingested.  The local run over the same
    directory warns about [empty.pdf] and ingests the three chunks of
    [a.pdf]. *)
Theorem cloud_run_fails_on_an_empty_document :
  let cloud := ingest (Cloud (cloudEnv ["empty.pdf"; "a.pdf"] sampleService)) emptyWorld in
  let local := ingest (Local (localEnv ["empty.pdf"; "a.pdf"] sampleTensor)) emptyWorld in
  cloud.1 = Returns {| success := false; count := 0;
                       error := Some "Failed to generate embeddings. The API response did not contain the expected 'embeddings' data." |} ∧
  upserts cloud.2 = [] ∧
  warnings (console cloud.2) = [] ∧
  local.1 = Returns {| success := true; count := 3; error := None |} ∧
  map ids (upserts local.2) = [["a.pdf-0"; "a.pdf-1"; "a.pdf-2"]] ∧
  warnings (console local.2)
  = ["[SKIPPING] File empty.pdf could not be parsed or contains no text. Check if it's a scanned PDF."].
Proof. vm_compute. done. Qed.

(** * Further properties of the code *)

(** ** Runs that cannot start *)

(** When the collection cannot be reached, a run resolves to a failure
    whose error names the Chroma host, not the error of the client, which
    is only printed; the store is left alone. *)
Theorem unreachable_store_is_reported (p : Pipeline) (w : World) (message : string) :
  connectionOf p = Throws message →
  (ingest p w).1
  = Returns {| success := false; count := 0;
               error := Some ("Failed to connect to ChromaDB. Ensure the service is running at "
                              +:+ hostOf p) |} ∧
  upserts (ingest p w).2 = upserts w ∧
  collection (ingest p w).2 = collection w ∧
  ConsoleError ("Error connecting to ChromaDB: " +:+ message) ∈ console (ingest p w).2.
Proof.
  intros Hconn. destruct p as [env|env]; simpl in *.
  - unfold Ingestion.ingestDocuments, Ingestion.getOrCreateCollection.
    io_unfold. simpl. rewrite Hconn. simpl.
    repeat split. rewrite !elem_of_app, !list_elem_of_singleton. auto.
  - unfold IngestionXenova.ingestDocumentsXenova, IngestionXenova.getOrCreateCollection.
    io_unfold. simpl. rewrite Hconn. simpl.
    destruct (extractor w); simpl; repeat split;
      rewrite !elem_of_app, !list_elem_of_singleton; auto.
Qed.

Lemma unreachable_store_is_reported_witness :
  let p := Cloud (cloudEnvWith (Throws "ECONNREFUSED") (Returns ["a.pdf"])) in
  (ingest p emptyWorld).1
  = Returns {| success := false; count := 0;
               error := Some ("Failed to connect to ChromaDB. Ensure the service is running at "
                              +:+ hostOf p) |} ∧
  upserts (ingest p emptyWorld).2 = [] ∧
  collection (ingest p emptyWorld).2 = ∅ ∧
  ConsoleError "Error connecting to ChromaDB: ECONNREFUSED"
    ∈ console (ingest p emptyWorld).2.
Proof.
  apply (unreachable_store_is_reported
           (Cloud (cloudEnvWith (Throws "ECONNREFUSED") (Returns ["a.pdf"])))
           emptyWorld "ECONNREFUSED").
  reflexivity.
Defined.

(** When the documents directory cannot be listed, a run resolves to a
    failure that carries the error of [readdir], and the store is left
    alone. *)
Theorem unreadable_directory_is_reported (p : Pipeline) (w : World) (message : string) :
  connectionOf p = Returns () →
  listingOf p = Throws message →
  (ingest p w).1
  = Returns {| success := false; count := 0; error := Some message |} ∧
  upserts (ingest p w).2 = upserts w ∧
  collection (ingest p w).2 = collection w.
Proof.
  intros Hconn Hlist.
  destruct (ingest_spec p w) as (res & w' & reqs & Hrun & Hu & Hc & Hcases).
  rewrite Hconn, Hlist in Hcases. destruct Hcases as [-> ->].
  rewrite Hrun. simpl. rewrite app_nil_r in Hu. done.
Qed.

Lemma unreadable_directory_is_reported_witness :
  let p := Cloud (cloudEnvWith (Returns ())
                    (Throws "ENOENT: no such file or directory, scandir")) in
  (ingest p emptyWorld).1
  = Returns {| success := false; count := 0;
               error := Some "ENOENT: no such file or directory, scandir" |} ∧
  upserts (ingest p emptyWorld).2 = [] ∧
  collection (ingest p emptyWorld).2 = ∅.
Proof.
  apply (unreadable_directory_is_reported
           (Cloud (cloudEnvWith (Returns ())
                     (Throws "ENOENT: no such file or directory, scandir")))
           emptyWorld "ENOENT: no such file or directory, scandir");
    reflexivity.
Defined.

(** ** The ingestion routes *)

Lemma ingestRoute_run (p : Pipeline) (w : World) (res : IngestResult) :
  (ingest p (requestReceived w)).1 = Returns res →
  ingestRoute p w = (Returns (answerOf res), (ingest p (requestReceived w)).2).
Proof.
  destruct (ingest p (requestReceived w)) as [r w'] eqn:Hrun. simpl. intros ->.
  unfold answerOf. destruct p as [env|env]; simpl in *.
  - unfold IngestRoute.POST. io_unfold. simpl.
    unfold requestReceived in Hrun. rewrite Hrun. by destruct (success res).
  - unfold IngestRouteXenova.POST. io_unfold. simpl.
    unfold requestReceived in Hrun. rewrite Hrun. by destruct (success res).
Qed.

(** A route handler answers from the result of the run it awaits: when
    the run resolves to [res], the answer has status 200 with the success
    message and the count if [res] is a success, and status 500 with
    [Ingestion failed.] and the error of [res] otherwise.  The [catch]
    block of the handler is not entered, and the handler does nothing
    after the run. *)
Theorem ingest_route_answers_from_result (p : Pipeline) (w : World)
    (res : IngestResult) :
  (ingest p (requestReceived w)).1 = Returns res →
  ingestRoute p w
  = (Returns (if success res then
                {| ingest_status := 200;
                   ingest_body :=
                     IngestedBody ("Ingestion successful. Total chunks added to ChromaDB: "
                                   +:+ pretty (count res))
                                  (count res) |}
              else
                {| ingest_status := 500;
                   ingest_body := FailedBody "Ingestion failed." (error res) |}),
     (ingest p (requestReceived w)).2).
Proof.
  intros Hrun. rewrite (ingestRoute_run p w res Hrun). unfold answerOf.
  by destruct (success res).
Qed.

Lemma ingest_route_answers_from_result_witness :
  let p := Cloud (cloudEnv ["a.pdf"; "b.pdf"] failingService) in
  ingestRoute p emptyWorld
  = (Returns {| ingest_status := 500;
                ingest_body := FailedBody "Ingestion failed."
                                 (Some "429 Too Many Requests") |},
     (ingest p (requestReceived emptyWorld)).2).
Proof.
  apply (ingest_route_answers_from_result
           (Cloud (cloudEnv ["a.pdf"; "b.pdf"] failingService)) emptyWorld
           {| success := false; count := 0; error := Some "429 Too Many Requests" |}).
  vm_compute. reflexivity.
Defined.

(** A directory without PDF files is answered with status 500: the
    failure result of the run becomes [Ingestion failed.] with the
    [No PDF files found] error, and the store is left alone. *)
Theorem empty_directory_is_answered_with_500 (p : Pipeline) (w : World)
    (listing : list string) :
  connectionOf p = Returns () →
  listingOf p = Returns listing →
  (∀ file, file ∈ listing → endsWith file ".pdf" = false) →
  (ingestRoute p w).1
  = Returns {| ingest_status := 500;
               ingest_body :=
                 FailedBody "Ingestion failed."
                   (Some ("No PDF files found in the directory: " +:+ directoryOf p)) |} ∧
  upserts (ingestRoute p w).2 = upserts w ∧
  collection (ingestRoute p w).2 = collection w.
Proof.
  intros Hconn Hlist Hnone.
  destruct (ingest_spec p (requestReceived w))
    as (res & w' & reqs & Hrun & Hu & Hc & Hcases).
  rewrite (ingestRoute_run p w res) by (by rewrite Hrun). rewrite Hrun. simpl in *.
  rewrite Hconn, Hlist, (pdfFiles_nil _ Hnone) in Hcases. simpl in Hcases.
  destruct Hcases as [-> ->]. rewrite app_nil_r in Hu. done.
Qed.

Lemma empty_directory_is_answered_with_500_witness :
  let p := Local (localEnv ["notes.txt"; "REPORT.PDF"] sampleTensor) in
  (ingestRoute p emptyWorld).1
  = Returns {| ingest_status := 500;
               ingest_body :=
                 FailedBody "Ingestion failed."
                   (Some ("No PDF files found in the directory: " +:+ directoryOf p)) |} ∧
  upserts (ingestRoute p emptyWorld).2 = [] ∧
  collection (ingestRoute p emptyWorld).2 = ∅.
Proof.
  apply (empty_directory_is_answered_with_500
           (Local (localEnv ["notes.txt"; "REPORT.PDF"] sampleTensor))
           emptyWorld ["notes.txt"; "REPORT.PDF"]).
  - reflexivity.
  - reflexivity.
  - intros file Hfile.
    apply elem_of_cons in Hfile as [->|Hfile]; [reflexivity|].
    apply elem_of_cons in Hfile as [->|Hfile]; [reflexivity|].
    by apply elem_of_nil in Hfile.
Defined.

(** ** Computations that leave an observation alone *)

Section Preserves.
Context {X : Type} (obs : World → X).

Lemma preserves_mret {A} (a : A) : preserves obs (mret a).
Proof. intros w r w' [= <- <-]. done. Qed.

Lemma preserves_throw {A} message : preserves obs (throw (A := A) message).
Proof. intros w r w' [= <- <-]. done. Qed.

Lemma preserves_await {A} (o : Outcome A) : preserves obs (await o).
Proof. intros w r w' [= <- <-]. done. Qed.

Lemma preserves_bind {A B} (m : IO A) (f : A → IO B) :
  preserves obs m → (∀ a, preserves obs (f a)) → preserves obs (m ≫= f).
Proof.
  intros Hm Hf w r w'. unfold mbind, IO_bind.
  destruct (m w) as [[a|e] w1] eqn:Hw1; intros Hr.
  - rewrite (Hf a _ _ _ Hr). by eapply Hm.
  - injection Hr as <- <-. by eapply Hm.
Qed.

Lemma preserves_try_catch {A} (body : IO A) (handler : string → IO A) :
  preserves obs body → (∀ e, preserves obs (handler e)) →
  preserves obs (try_catch body handler).
Proof.
  intros Hbody Hhandler w r w'. unfold try_catch.
  destruct (body w) as [[a|e] w1] eqn:Hw1; intros Hr.
  - injection Hr as <- <-. by eapply Hbody.
  - rewrite (Hhandler e _ _ _ Hr). by eapply Hbody.
Qed.

End Preserves.

Lemma warned_log w line :
  warned {| collection := collection w; upserts := upserts w;
            console := console w ++ [ConsoleLog line];
            extractor := extractor w |} = warned w.
Proof. unfold warned, warnings. simpl. by rewrite omap_app, app_nil_r. Qed.

Lemma warned_error w line :
  warned {| collection := collection w; upserts := upserts w;
            console := console w ++ [ConsoleError line];
            extractor := extractor w |} = warned w.
Proof. unfold warned, warnings. simpl. by rewrite omap_app, app_nil_r. Qed.

Lemma warned_warn w line :
  warned {| collection := collection w; upserts := upserts w;
            console := console w ++ [ConsoleWarn line];
            extractor := extractor w |} = warned w ++ [line].
Proof. unfold warned, warnings. simpl. by rewrite omap_app. Qed.

Lemma preserves_log_warned line : preserves warned (console_log line).
Proof. intros w r w' [= <- <-]. apply warned_log. Qed.

Lemma preserves_error_warned line : preserves warned (console_error line).
Proof. intros w r w' [= <- <-]. apply warned_error. Qed.

Lemma preserves_emit_store ev : preserves store (emit ev).
Proof. intros w r w' [= <- <-]. done. Qed.

Lemma preserves_emit_extractor ev : preserves extractor (emit ev).
Proof. intros w r w' [= <- <-]. done. Qed.

Lemma preserves_upsert_warned rejects req :
  preserves warned (collection_upsert rejects req).
Proof.
  intros w r w'. unfold collection_upsert.
  destruct (rejects req); intros [= <- <-]; done.
Qed.

Lemma preserves_upsert_extractor rejects req :
  preserves extractor (collection_upsert rejects req).
Proof.
  intros w r w'. unfold collection_upsert.
  destruct (rejects req); intros [= <- <-]; done.
Qed.

Lemma preserves_get_extractor {X} (obs : World → X) :
  preserves obs IngestionXenova.get_extractor.
Proof. intros w r w' [= <- <-]. done. Qed.

Lemma preserves_set_extractor_warned b :
  preserves warned (IngestionXenova.set_extractor b).
Proof. intros w r w' [= <- <-]. done. Qed.

Lemma preserves_set_extractor_store b :
  preserves store (IngestionXenova.set_extractor b).
Proof. intros w r w' [= <- <-]. done. Qed.

(** Taking a computation apart along its binds, handlers and branches. *)
Ltac preserve :=
  repeat first
    [ apply preserves_bind; [|intros ?]
    | apply preserves_try_catch; [|intros ?]
    | apply preserves_mret
    | apply preserves_throw
    | apply preserves_await
    | apply preserves_log_warned
    | apply preserves_error_warned
    | apply preserves_emit_store
    | apply preserves_emit_extractor
    | apply preserves_upsert_warned
    | apply preserves_upsert_extractor
    | apply preserves_get_extractor
    | apply preserves_set_extractor_warned
    | apply preserves_set_extractor_store
    | progress cbv zeta
    | match goal with
      | |- preserves _ (match ?x with _ => _ end) => destruct x
      end
    | assumption ].

(** ** The cloud pipeline never warns *)

Lemma cloud_getOrCreateCollection_quiet env :
  preserves warned (Ingestion.getOrCreateCollection env).
Proof. unfold Ingestion.getOrCreateCollection. preserve. Qed.

Lemma cloud_ingestFile_quiet env fileName n :
  preserves warned (Ingestion.ingestFile env fileName n).
Proof.
  unfold Ingestion.ingestFile, Ingestion.extractTextFromPdf, Ingestion.chunkText,
    Ingestion.generateEmbeddings.
  preserve.
Qed.

Lemma cloud_ingestLoop_quiet env files n :
  preserves warned (Ingestion.ingestLoop env files n).
Proof.
  revert n. induction files as [|fileName files IH]; intros n; simpl.
  - preserve.
  - apply preserves_bind; [apply cloud_ingestFile_quiet|]. intros m. apply IH.
Qed.

Lemma cloud_ingestDocuments_quiet env :
  preserves warned (Ingestion.ingestDocuments env).
Proof.
  unfold Ingestion.ingestDocuments. apply preserves_try_catch; [|intros ?; preserve].
  apply preserves_bind; [apply cloud_getOrCreateCollection_quiet|]. intros _.
  apply preserves_bind; [preserve|]. intros listing. cbv zeta.
  case_decide; [preserve|].
  apply preserves_bind; [apply cloud_ingestLoop_quiet|]. intros m. preserve.
Qed.

(** Whatever happens in a run of the cloud pipeline, nothing is printed
    with [console.warn]: a document that fails is never a document that is
    skipped. *)
Theorem cloud_pipeline_never_warns (env : Ingestion.Env) (w : World) :
  warnings (console (ingest (Cloud env) w).2) = warnings (console w).
Proof.
  destruct (ingest (Cloud env) w) as [r w'] eqn:Hrun. simpl in *.
  by apply (cloud_ingestDocuments_quiet env w r w').
Qed.

(** ** The local pipeline: what its parts leave alone *)

Lemma local_embeddingsLoop_preserves {X} (obs : World → X) tensor i remaining acc :
  preserves obs (IngestionXenova.embeddingsLoop tensor i remaining acc).
Proof.
  intros w r w' Hrun. by apply local_embeddingsLoop_spec in Hrun as [-> _].
Qed.

Lemma local_extractText_warned env filePath :
  preserves warned (IngestionXenova.extractTextFromPdf env filePath).
Proof. unfold IngestionXenova.extractTextFromPdf. preserve. Qed.

Lemma local_extractText_extractor env filePath :
  preserves extractor (IngestionXenova.extractTextFromPdf env filePath).
Proof. unfold IngestionXenova.extractTextFromPdf. preserve. Qed.

Lemma local_generateEmbeddings_warned env chunks :
  preserves warned (IngestionXenova.generateEmbeddingsXenova env chunks).
Proof.
  unfold IngestionXenova.generateEmbeddingsXenova, IngestionXenova.initializeExtractor.
  preserve; apply local_embeddingsLoop_preserves.
Qed.

(** A document that is skipped costs one warning and nothing else; a
    document that is not skipped is never warned about. *)
Lemma local_ingestFile_step env fileName n w r w' :
  IngestionXenova.ingestFile env fileName n w = (r, w') →
  match IngestionXenova.documentChunks env fileName with
  | None =>
      r = Returns n ∧ store w' = store w ∧ extractor w' = extractor w ∧
      ∃ line, warned w' = warned w ++ [line]
  | Some _ => warned w' = warned w
  end.
Proof.
  unfold IngestionXenova.ingestFile. io_unfold. simpl.
  match goal with
  | |- context [IngestionXenova.extractTextFromPdf env ?path ?w0] =>
      destruct (IngestionXenova.extractTextFromPdf env path w0)
        as [[fullText|msg] w2] eqn:Hx
  end;
    pose proof (local_extractText_warned env _ _ _ _ Hx) as Hwarned;
    pose proof (local_extractText_extractor env _ _ _ _ Hx) as Hext;
    apply local_extractText_spec in Hx as (Hc & Hu & Hx);
    unfold IngestionXenova.documentChunks; rewrite Hx; simpl in *.
  2:{ intros [= <- <-]. split; [done|].
      split; [unfold store; simpl; by rewrite Hc, Hu|]. split; [done|].
      eexists. by rewrite warned_warn, Hwarned, warned_log. }
  destruct (decide (String.length fullText = 0)); simpl.
  { intros [= <- <-]. split; [done|].
      split; [unfold store; simpl; by rewrite Hc, Hu|]. split; [done|].
      eexists. by rewrite warned_warn, Hwarned, warned_log. }
  destruct (decide (length _ = 0)); simpl.
  { intros [= <- <-]. split; [done|].
      split; [unfold store; simpl; by rewrite Hc, Hu|]. split; [done|].
      eexists. by rewrite warned_warn, Hwarned, warned_log. }
  match goal with
  | |- context [IngestionXenova.generateEmbeddingsXenova env ?chunks ?w1] =>
      destruct (IngestionXenova.generateEmbeddingsXenova env chunks w1)
        as [[embs|msg] w3] eqn:He
  end;
    pose proof (local_generateEmbeddings_warned env _ _ _ _ He) as Hwarned3.
  2:{ intros [= <- <-]. by rewrite Hwarned3, Hwarned, warned_log. }
  destruct (IngestionXenova.chroma_rejects env _); simpl; intros [= <- <-].
  all: unfold warned, warnings in *; simpl in *.
  all: rewrite ?omap_app in *; simpl in *; rewrite ?app_nil_r in *.
  all: congruence.
Qed.

(** When the loop returns, it has warned once for every file it skipped. *)
Lemma local_ingestLoop_warned env files n w m w' :
  IngestionXenova.ingestLoop env files n w = (Returns m, w') →
  ∃ lines,
    warned w' = warned w ++ lines ∧
    length lines + length (IngestionXenova.planned env files) = length files.
Proof.
  revert n w. induction files as [|fileName files IH]; intros n w.
  - simpl. io_unfold. intros [= <- <-]. exists []. by rewrite app_nil_r.
  - rewrite local_planned_cons. cbn [IngestionXenova.ingestLoop].
    unfold mbind, IO_bind.
    destruct (IngestionXenova.ingestFile env fileName n w) as [[k|msg] w1] eqn:Hfile;
      [|done].
    intros Hloop. apply IH in Hloop as (lines & Hlines & Hlen).
    apply local_ingestFile_step in Hfile.
    unfold IngestionXenova.planned at 1. simpl.
    destruct (IngestionXenova.documentChunks env fileName) as [chunks|]; simpl.
    + exists lines. rewrite Hlines, Hfile. split; [done|]. simpl. lia.
    + destruct Hfile as (_ & _ & _ & line & Hline).
      exists (line :: lines). rewrite Hlines, Hline, <- app_assoc.
      split; [done|]. simpl. lia.
Qed.

(** ** Skipped documents *)

Lemma local_warnings_of_run (env : IngestionXenova.Env)
    (w : World) (listing : list string) (res : IngestResult) :
  listingOf (Local env) = Returns listing →
  (ingest (Local env) w).1 = Returns res →
  success res = true →
  ∃ lines,
    warnings (console (ingest (Local env) w).2) = warnings (console w) ++ lines ∧
    length lines + length (IngestionXenova.planned env (pdfFiles listing))
    = length (pdfFiles listing).
Proof.
  intros Hlist. simpl in *.
  destruct (IngestionXenova.ingestDocumentsXenova env w) as [r w'] eqn:Hrun.
  simpl. intros -> Hok. revert Hrun.
  unfold IngestionXenova.ingestDocumentsXenova, IngestionXenova.getOrCreateCollection.
  io_unfold. simpl.
  destruct (IngestionXenova.chroma_getOrCreateCollection _ _) as [[]|msg]; simpl.
  2:{ intros [= <- _]. done. }
  rewrite Hlist. simpl. fold (pdfFiles listing).
  destruct (decide (length (pdfFiles listing) = 0)); simpl.
  { intros [= <- _]. done. }
  match goal with
  | |- context [IngestionXenova.ingestLoop env _ 0 ?w1] =>
      destruct (IngestionXenova.ingestLoop env (pdfFiles listing) 0 w1)
        as [[m|msg] w2] eqn:Hloop
  end; simpl.
  2:{ intros [= <- _]. done. }
  apply local_ingestLoop_warned in Hloop as (lines & Hlines & Hlen).
  intros [= _ <-]. exists lines. split; [|done].
  unfold warned, warnings in Hlines. simpl in Hlines.
  rewrite !omap_app in Hlines. simpl in Hlines. rewrite !app_nil_r in Hlines.
  by destruct (extractor w2).
Qed.


(** A successful run of the local pipeline warns exactly once for every
    PDF file it skips: the warnings of the run and the documents it
    ingests add up to the PDF files of the listing. *)
Theorem local_run_warns_once_per_skipped_document (env : IngestionXenova.Env)
    (w : World) (listing : list string) (res : IngestResult) :
  listingOf (Local env) = Returns listing →
  (ingest (Local env) w).1 = Returns res →
  success res = true →
  ∃ lines,
    warnings (console (ingest (Local env) w).2) = warnings (console w) ++ lines ∧
    length lines + length (IngestionXenova.planned env (pdfFiles listing))
    = length (pdfFiles listing).
Proof. apply local_warnings_of_run. Qed.

Lemma local_run_warns_once_per_skipped_document_witness :
  let env := localEnv ["empty.pdf"; "a.pdf"; "missing.pdf"; "b.pdf"] sampleTensor in
  ∃ lines,
    warnings (console (ingest (Local env) emptyWorld).2) = [] ++ lines ∧
    length lines
    + length (IngestionXenova.planned env
                (pdfFiles ["empty.pdf"; "a.pdf"; "missing.pdf"; "b.pdf"]))
    = length (pdfFiles ["empty.pdf"; "a.pdf"; "missing.pdf"; "b.pdf"]).
Proof.
  apply (local_run_warns_once_per_skipped_document
           (localEnv ["empty.pdf"; "a.pdf"; "missing.pdf"; "b.pdf"] sampleTensor)
           emptyWorld ["empty.pdf"; "a.pdf"; "missing.pdf"; "b.pdf"]
           {| success := true; count := 4; error := None |}).
  - reflexivity.
  - vm_compute. reflexivity.
  - reflexivity.
Defined.

(** When every PDF file of the directory is skipped, the loop returns with
    the count and the store it started from. *)
Lemma local_all_skipped_loop env files n w :
  (∀ fileName, fileName ∈ files →
     IngestionXenova.documentChunks env fileName = None) →
  ∃ w', IngestionXenova.ingestLoop env files n w = (Returns n, w') ∧
        store w' = store w ∧ extractor w' = extractor w.
Proof.
  revert w. induction files as [|fileName files IH]; intros w Hskip.
  - exists w. by simpl.
  - cbn [IngestionXenova.ingestLoop]. unfold mbind, IO_bind.
    destruct (IngestionXenova.ingestFile env fileName n w) as [r w1] eqn:Hfile.
    apply local_ingestFile_step in Hfile.
    rewrite (Hskip fileName) in Hfile by apply list_elem_of_here.
    destruct Hfile as (-> & Hstore & Hext & _).
    destruct (IH w1) as (w' & Hloop & Hstore' & Hext').
    { intros f Hf. apply Hskip. by apply list_elem_of_further. }
    exists w'. rewrite Hloop. split; [done|]. split; congruence.
Qed.

Lemma local_all_skipped_run env w listing :
  connectionOf (Local env) = Returns () →
  listingOf (Local env) = Returns listing →
  pdfFiles listing ≠ [] →
  (∀ fileName, fileName ∈ pdfFiles listing →
     IngestionXenova.documentChunks env fileName = None) →
  (ingest (Local env) w).1
  = Returns {| success := true; count := 0; error := None |} ∧
  upserts (ingest (Local env) w).2 = upserts w ∧
  collection (ingest (Local env) w).2 = collection w.
Proof.
  intros Hconn Hlist Hsome Hskip. simpl in *.
  unfold IngestionXenova.ingestDocumentsXenova, IngestionXenova.getOrCreateCollection.
  io_unfold. simpl. rewrite Hconn, Hlist. simpl. fold (pdfFiles listing).
  rewrite decide_False by (by destruct (pdfFiles listing)). simpl.
  match goal with
  | |- context [IngestionXenova.ingestLoop env _ 0 ?w1] =>
      destruct (local_all_skipped_loop env (pdfFiles listing) 0 w1 Hskip)
        as (w' & -> & Hstore & _)
  end.
  simpl. injection Hstore as Hc Hu. simpl in Hc, Hu.
  by destruct (extractor w').
Qed.

(** A directory whose PDF files are all skipped is no failure for the
    local pipeline: the run resolves to [success = true] with [count = 0]
    and sends nothing to the store. *)
Theorem local_run_of_skipped_documents_succeeds_with_zero
    (env : IngestionXenova.Env) (w : World) (listing : list string) :
  connectionOf (Local env) = Returns () →
  listingOf (Local env) = Returns listing →
  pdfFiles listing ≠ [] →
  (∀ fileName, fileName ∈ pdfFiles listing →
     IngestionXenova.documentChunks env fileName = None) →
  (ingest (Local env) w).1
  = Returns {| success := true; count := 0; error := None |} ∧
  upserts (ingest (Local env) w).2 = upserts w ∧
  collection (ingest (Local env) w).2 = collection w.
Proof. apply local_all_skipped_run. Qed.

Lemma local_run_of_skipped_documents_succeeds_with_zero_witness :
  let env := localEnv ["empty.pdf"; "missing.pdf"; "notes.txt"] sampleTensor in
  (ingest (Local env) emptyWorld).1
  = Returns {| success := true; count := 0; error := None |} ∧
  upserts (ingest (Local env) emptyWorld).2 = [] ∧
  collection (ingest (Local env) emptyWorld).2 = ∅.
Proof.
  apply (local_run_of_skipped_documents_succeeds_with_zero
           (localEnv ["empty.pdf"; "missing.pdf"; "notes.txt"] sampleTensor)
           emptyWorld ["empty.pdf"; "missing.pdf"; "notes.txt"]).
  - reflexivity.
  - reflexivity.
  - vm_compute. discriminate.
  - intros fileName Hfile. vm_compute in Hfile.
    apply elem_of_cons in Hfile as [->|Hfile]; [reflexivity|].
    apply elem_of_cons in Hfile as [->|Hfile]; [reflexivity|].
    by apply elem_of_nil in Hfile.
Defined.

(** When [pdf-parse] cannot be loaded, no document can be extracted. *)
Lemma local_no_parser_no_text env fileName :
  IngestionXenova.require_pdf_parse env = IngestionXenova.RequireThrows ∨
  IngestionXenova.require_pdf_parse env = IngestionXenova.RequireNotFunction →
  IngestionXenova.documentChunks env fileName = None.
Proof.
  intros Hreq.
  unfold IngestionXenova.documentChunks, IngestionXenova.extractedText,
    IngestionXenova.pdf.
  destruct (IngestionXenova.readFile env _); [|done].
  by destruct Hreq as [-> | ->].
Qed.

(** When [require('pdf-parse')] fails as the module is loaded, every
    ingestion run over a directory that holds PDF files still resolves to
    [success = true], with [count = 0]: each document is skipped with a
    warning and nothing reaches the store. *)
Theorem local_run_without_pdf_parse_succeeds_with_zero
    (env : IngestionXenova.Env) (w : World) (listing : list string) :
  IngestionXenova.require_pdf_parse env = IngestionXenova.RequireThrows →
  connectionOf (Local env) = Returns () →
  listingOf (Local env) = Returns listing →
  pdfFiles listing ≠ [] →
  (ingest (Local env) w).1
  = Returns {| success := true; count := 0; error := None |} ∧
  upserts (ingest (Local env) w).2 = upserts w ∧
  length (warnings (console (ingest (Local env) w).2))
  = length (warnings (console w)) + length (pdfFiles listing).
Proof.
  intros Hreq Hconn Hlist Hsome.
  assert (∀ fileName, fileName ∈ pdfFiles listing →
            IngestionXenova.documentChunks env fileName = None) as Hskip.
  { intros fileName _. apply local_no_parser_no_text. by left. }
  destruct (local_all_skipped_run env w listing Hconn Hlist Hsome Hskip)
    as (Hrun & Hu & _).
  split; [done|]. split; [done|].
  destruct (local_warnings_of_run env w listing _ Hlist Hrun eq_refl)
    as (lines & -> & Hlen).
  rewrite length_app.
  assert (IngestionXenova.planned env (pdfFiles listing) = []) as Hplanned.
  { unfold IngestionXenova.planned. clear -Hskip.
    induction (pdfFiles listing) as [|f fs IH]; [done|]. simpl.
    rewrite (Hskip f) by apply list_elem_of_here. simpl.
    apply IH. intros ? ?. apply Hskip. by apply list_elem_of_further. }
  rewrite Hplanned in Hlen. simpl in Hlen. lia.
Qed.

Lemma local_run_without_pdf_parse_succeeds_with_zero_witness :
  let env := localEnvWith ["a.pdf"; "b.pdf"] IngestionXenova.RequireThrows
               (Returns ()) sampleTensor in
  (ingest (Local env) emptyWorld).1
  = Returns {| success := true; count := 0; error := None |} ∧
  upserts (ingest (Local env) emptyWorld).2 = [] ∧
  length (warnings (console (ingest (Local env) emptyWorld).2))
  = 0 + length (pdfFiles ["a.pdf"; "b.pdf"]).
Proof.
  apply (local_run_without_pdf_parse_succeeds_with_zero
           (localEnvWith ["a.pdf"; "b.pdf"] IngestionXenova.RequireThrows
              (Returns ()) sampleTensor)
           emptyWorld ["a.pdf"; "b.pdf"]).
  - reflexivity.
  - reflexivity.
  - reflexivity.
  - vm_compute. discriminate.
Defined.

(** ** The embedding pipeline of the local provider *)

(** Whatever a run of the local pipeline did, the module-level
    [extractor] is released when the run is over. *)
Theorem extractor_is_released_after_every_run (env : IngestionXenova.Env) (w : World) :
  extractor (ingest (Local env) w).2 = false.
Proof.
  destruct (local_ingestDocuments_spec env w) as (res & w' & reqs & Hrun & _ & _ & Hext & _).
  simpl. by rewrite Hrun.
Qed.

Lemma local_ingestFile_init_failure env fileName chunks n w message :
  IngestionXenova.documentChunks env fileName = Some chunks →
  extractor w = false →
  IngestionXenova.pipeline env IngestionXenova.XENOVA_EMBEDDING_MODEL = Throws message →
  ∃ w', IngestionXenova.ingestFile env fileName n w = (Throws message, w') ∧
        store w' = store w.
Proof.
  intros Hchunks Hnull Hinit. unfold IngestionXenova.ingestFile. io_unfold. simpl.
  match goal with
  | |- context [IngestionXenova.extractTextFromPdf env ?path ?w0] =>
      destruct (IngestionXenova.extractTextFromPdf env path w0)
        as [[fullText|msg] w2] eqn:Hx
  end;
    pose proof (local_extractText_extractor env _ _ _ _ Hx) as Hext;
    apply local_extractText_spec in Hx as (Hc & Hu & Hx);
    unfold IngestionXenova.documentChunks in Hchunks; rewrite Hx in Hchunks;
    simpl in *; [|done].
  destruct (decide (String.length fullText = 0)); [done|].
  destruct (decide (length _ = 0)); [done|]. simpl.
  unfold IngestionXenova.generateEmbeddingsXenova, IngestionXenova.initializeExtractor,
    IngestionXenova.get_extractor.
  io_unfold. simpl. rewrite Hext, Hnull. simpl. rewrite Hinit. simpl.
  eexists. split; [reflexivity|]. unfold store. simpl. by rewrite Hc, Hu.
Qed.

Lemma local_init_failure_loop env files n w message :
  extractor w = false →
  IngestionXenova.pipeline env IngestionXenova.XENOVA_EMBEDDING_MODEL = Throws message →
  IngestionXenova.planned env files ≠ [] →
  ∃ w', IngestionXenova.ingestLoop env files n w = (Throws message, w') ∧
        store w' = store w.
Proof.
  intros Hnull Hinit. revert w Hnull.
  induction files as [|fileName files IH]; intros w Hnull Hplanned; [done|].
  rewrite local_planned_cons in Hplanned.
  cbn [IngestionXenova.ingestLoop]. unfold mbind, IO_bind.
  destruct (IngestionXenova.documentChunks env fileName) as [chunks|] eqn:Hchunks.
  - destruct (local_ingestFile_init_failure env fileName chunks n w message)
      as (w' & -> & Hstore); try done.
    by exists w'.
  - destruct (IngestionXenova.ingestFile env fileName n w) as [r w1] eqn:Hfile.
    apply local_ingestFile_step in Hfile. rewrite Hchunks in Hfile.
    destruct Hfile as (-> & Hstore & Hext & _).
    destruct (IH w1) as (w' & Hloop & Hstore'); [congruence| |].
    { unfold IngestionXenova.planned in Hplanned at 1. simpl in Hplanned.
      by rewrite Hchunks in Hplanned. }
    exists w'. split; [done|]. congruence.
Qed.

(** When the embedding pipeline cannot be initialized, the first document
    that is not skipped ends the run: it resolves to a failure that carries
    the error of [pipeline(...)], and nothing reaches the store. *)
Theorem pipeline_failure_fails_the_run (env : IngestionXenova.Env) (w : World)
    (listing : list string) (message : string) :
  connectionOf (Local env) = Returns () →
  listingOf (Local env) = Returns listing →
  extractor w = false →
  IngestionXenova.pipeline env IngestionXenova.XENOVA_EMBEDDING_MODEL = Throws message →
  IngestionXenova.planned env (pdfFiles listing) ≠ [] →
  (ingest (Local env) w).1
  = Returns {| success := false; count := 0; error := Some message |} ∧
  upserts (ingest (Local env) w).2 = upserts w ∧
  collection (ingest (Local env) w).2 = collection w.
Proof.
  intros Hconn Hlist Hnull Hinit Hplanned. simpl in *.
  unfold IngestionXenova.ingestDocumentsXenova, IngestionXenova.getOrCreateCollection.
  io_unfold. simpl. rewrite Hconn, Hlist. simpl. fold (pdfFiles listing).
  rewrite decide_False by (by destruct (pdfFiles listing)). simpl.
  match goal with
  | |- context [IngestionXenova.ingestLoop env _ 0 ?w1] =>
      destruct (local_init_failure_loop env (pdfFiles listing) 0 w1 message)
        as (w' & -> & Hstore); try done
  end.
  simpl. injection Hstore as Hc Hu. simpl in Hc, Hu.
  by destruct (extractor w').
Qed.

Lemma pipeline_failure_fails_the_run_witness :
  let env := localEnvWith ["empty.pdf"; "a.pdf"]
               (IngestionXenova.RequireFunction sampleParse)
               (Throws "Could not locate file: model.onnx") sampleTensor in
  (ingest (Local env) emptyWorld).1
  = Returns {| success := false; count := 0;
               error := Some "Could not locate file: model.onnx" |} ∧
  upserts (ingest (Local env) emptyWorld).2 = [] ∧
  collection (ingest (Local env) emptyWorld).2 = ∅.
Proof.
  apply (pipeline_failure_fails_the_run
           (localEnvWith ["empty.pdf"; "a.pdf"]
              (IngestionXenova.RequireFunction sampleParse)
              (Throws "Could not locate file: model.onnx") sampleTensor)
           emptyWorld ["empty.pdf"; "a.pdf"] "Could not locate file: model.onnx").
  - reflexivity.
  - reflexivity.
  - reflexivity.
  - reflexivity.
  - vm_compute. discriminate.
Defined.

(** When the local provider returns, it returns the data of the first
    rows of the tensor, one per text: the result has exactly as many
    vectors as there were texts, and rows beyond them are ignored. *)
Theorem local_embeddings_are_the_first_rows (env : IngestionXenova.Env)
    (texts : list string) (w : World) (out : list vector) :
  (IngestionXenova.generateEmbeddingsXenova env texts w).1 = Returns out →
  length out = length texts ∧
  ∃ tensor,
    IngestionXenova.featureExtraction env texts = Returns tensor ∧
    out = map IngestionXenova.data (take (length texts) tensor).
Proof.
  destruct (IngestionXenova.generateEmbeddingsXenova env texts w) as [r w'] eqn:Hrun.
  simpl. intros ->.
  apply local_generateEmbeddings_returns
    in Hrun as (_ & _ & tensor & Htensor & Hlen & ->).
  split; [rewrite length_map, length_take; lia|]. by exists tensor.
Qed.

Lemma local_embeddings_are_the_first_rows_witness :
  length [sampleEmbed "alpha"; sampleEmbed "beta"] = length ["alpha"; "beta"] ∧
  ∃ tensor,
    IngestionXenova.featureExtraction (localEnv [] longTensor) ["alpha"; "beta"]
    = Returns tensor ∧
    [sampleEmbed "alpha"; sampleEmbed "beta"]
    = map IngestionXenova.data (take (length ["alpha"; "beta"]) tensor).
Proof.
  apply (local_embeddings_are_the_first_rows
           (localEnv [] longTensor) ["alpha"; "beta"] emptyWorld).
  reflexivity.
Defined.

(** When the tensor has fewer rows than there are texts, the local
    provider throws instead of returning a shorter array, and the store is
    left alone. *)
Theorem local_short_tensor_throws (env : IngestionXenova.Env) (texts : list string)
    (tensor : list IngestionXenova.TensorRow) (w : World) :
  IngestionXenova.featureExtraction env texts = Returns tensor →
  length tensor < length texts →
  ∃ message,
    (IngestionXenova.generateEmbeddingsXenova env texts w).1 = Throws message ∧
    upserts (IngestionXenova.generateEmbeddingsXenova env texts w).2 = upserts w ∧
    collection (IngestionXenova.generateEmbeddingsXenova env texts w).2 = collection w.
Proof.
  intros Htensor Hshort.
  destruct (IngestionXenova.generateEmbeddingsXenova env texts w)
    as [[out|message] w'] eqn:Hrun; simpl.
  - apply local_generateEmbeddings_returns
      in Hrun as (_ & _ & tensor' & Htensor' & Hlen & _).
    rewrite Htensor in Htensor'. injection Htensor' as <-. lia.
  - apply local_generateEmbeddings_throws in Hrun as [Hc Hu]. by exists message.
Qed.

Lemma local_short_tensor_throws_witness :
  let env := localEnv [] shortTensor in
  ∃ message,
    (IngestionXenova.generateEmbeddingsXenova env ["alpha"; "beta"] emptyWorld).1
    = Throws message ∧
    upserts (IngestionXenova.generateEmbeddingsXenova env ["alpha"; "beta"] emptyWorld).2
    = [] ∧
    collection (IngestionXenova.generateEmbeddingsXenova env ["alpha"; "beta"] emptyWorld).2
    = ∅.
Proof.
  apply (local_short_tensor_throws (localEnv [] shortTensor) ["alpha"; "beta"]
           [{| IngestionXenova.data := sampleEmbed "beta" |}] emptyWorld).
  - reflexivity.
  - simpl. lia.
Defined.

(** ** The embedding service of the cloud provider *)

(** The cloud provider never returns an empty array: when it returns, the
    response carried at least one embedding. *)
Theorem cloud_embeddings_are_never_empty (env : Ingestion.Env) (chunks : list string)
    (w : World) (out : list vector) :
  (Ingestion.generateEmbeddings env chunks w).1 = Returns out →
  out ≠ [].
Proof.
  destruct (Ingestion.generateEmbeddings env chunks w) as [r w'] eqn:Hrun.
  simpl. intros ->.
  apply cloud_generateEmbeddings_returns in Hrun as (_ & _ & es & _ & Hne & ->).
  by destruct es.
Qed.

Lemma cloud_embeddings_are_never_empty_witness :
  [sampleEmbed "alpha"; sampleEmbed "beta"] ≠ [].
Proof.
  apply (cloud_embeddings_are_never_empty (cloudEnv [] sampleService)
           ["alpha"; "beta"] emptyWorld).
  reflexivity.
Defined.

(** The cloud provider checks only that the response carries embeddings,
    not how many: any non-empty response is returned as it is, in its
    order, whatever the number of chunks that were sent. *)
Theorem cloud_embeddings_are_those_of_the_response (env : Ingestion.Env)
    (chunks : list string) (es : list Ingestion.ContentEmbedding) (w : World) :
  Ingestion.embedContent env Ingestion.EMBEDDING_MODEL (Ingestion.contentsOf chunks)
  = Returns {| Ingestion.response_embeddings := Some es |} →
  es ≠ [] →
  (Ingestion.generateEmbeddings env chunks w).1 = Returns (map Ingestion.values es) ∧
  upserts (Ingestion.generateEmbeddings env chunks w).2 = upserts w ∧
  collection (Ingestion.generateEmbeddings env chunks w).2 = collection w.
Proof.
  intros Hes Hne. unfold Ingestion.generateEmbeddings. io_unfold. simpl.
  rewrite Hes. simpl. by destruct es.
Qed.

Lemma cloud_embeddings_are_those_of_the_response_witness :
  let env := cloudEnv [] singleService in
  (Ingestion.generateEmbeddings env ["alpha"; "beta"; "gamma"] emptyWorld).1
  = Returns (map Ingestion.values [{| Ingestion.values := [1%float] |}]) ∧
  upserts (Ingestion.generateEmbeddings env ["alpha"; "beta"; "gamma"] emptyWorld).2
  = [] ∧
  collection (Ingestion.generateEmbeddings env ["alpha"; "beta"; "gamma"] emptyWorld).2
  = ∅.
Proof.
  apply (cloud_embeddings_are_those_of_the_response (cloudEnv [] singleService)
           ["alpha"; "beta"; "gamma"] [{| Ingestion.values := [1%float] |}] emptyWorld).
  - reflexivity.
  - discriminate.
Defined.

(** A response without embeddings, or with an empty list of them, makes
    the cloud provider throw, and with it the whole run fail with
    [Failed to generate embeddings]: the failure of one batch is the
    failure of the run. *)
Lemma cloud_missing_embeddings_throw env chunks response w :
  Ingestion.embedContent env Ingestion.EMBEDDING_MODEL (Ingestion.contentsOf chunks)
  = Returns response →
  Ingestion.response_embeddings response = None ∨
  Ingestion.response_embeddings response = Some [] →
  (Ingestion.generateEmbeddings env chunks w).1
  = Throws "Failed to generate embeddings. The API response did not contain the expected 'embeddings' data.".
Proof.
  intros Hresp Hnone. unfold Ingestion.generateEmbeddings. io_unfold. simpl.
  rewrite Hresp. simpl. by destruct Hnone as [-> | ->].
Qed.

(** ** Text extraction in the cloud pipeline *)

Lemma fullText_foldl_length env pages acc :
  String.length
    (foldl (λ fullText page, fullText +:+ Ingestion.pageText env page +:+ LF +:+ LF)
           acc pages)
  ≥ String.length acc + 2 * length pages.
Proof.
  revert acc. induction pages as [|page pages IH]; intros acc; simpl; [lia|].
  specialize (IH (acc +:+ Ingestion.pageText env page +:+ LF +:+ LF)).
  rewrite !string_length_app in IH. simpl in IH. lia.
Qed.

(** The text the cloud pipeline extracts holds a blank line for every
    page, so it is empty only for a PDF without pages: a scanned page
    still yields text, of line breaks only. *)
Theorem cloud_text_is_empty_only_without_pages (env : Ingestion.Env)
    (pdfData : Ingestion.PdfData) :
  2 * length (Ingestion.Pages pdfData)
  ≤ String.length (Ingestion.fullTextOf env pdfData) ∧
  (Ingestion.fullTextOf env pdfData = EmptyString ↔ Ingestion.Pages pdfData = []).
Proof.
  pose proof (fullText_foldl_length env (Ingestion.Pages pdfData) EmptyString) as Hlen.
  fold (Ingestion.fullTextOf env pdfData) in Hlen. simpl in Hlen.
  split; [lia|]. split.
  - intros Hempty. rewrite Hempty in Hlen. simpl in Hlen.
    destruct (Ingestion.Pages pdfData); [done|simpl in Hlen; lia].
  - intros Hnone. unfold Ingestion.fullTextOf. by rewrite Hnone.
Qed.

Lemma cloud_parse_error_throws env fileName parserError n w :
  Ingestion.loadPDF env
    (Ingestion.path_join env (Ingestion.DOCUMENTS_DIR env) fileName)
  = Ingestion.pdfParser_dataError parserError →
  ∃ w', Ingestion.ingestFile env fileName n w
        = (Throws ("PDF parsing error: " +:+ parserError), w') ∧
        store w' = store w.
Proof.
  intros Herror. unfold Ingestion.ingestFile, Ingestion.extractTextFromPdf.
  io_unfold. simpl. rewrite Herror. simpl. by eexists.
Qed.

Lemma cloud_parse_error_ends_loop env fileName parserError files n w :
  fileName ∈ files →
  Ingestion.loadPDF env
    (Ingestion.path_join env (Ingestion.DOCUMENTS_DIR env) fileName)
  = Ingestion.pdfParser_dataError parserError →
  ∃ message w', Ingestion.ingestLoop env files n w = (Throws message, w').
Proof.
  intros Hin Herror. revert n w.
  induction files as [|f files IH]; intros n w; [by apply elem_of_nil in Hin|].
  cbn [Ingestion.ingestLoop]. unfold mbind, IO_bind.
  destruct (Ingestion.ingestFile env f n w) as [[m|message] w1] eqn:Hfile;
    [|by eexists _, _].
  apply elem_of_cons in Hin as [<-|Hin]; [|by apply IH].
  destruct (cloud_parse_error_throws env fileName parserError n w Herror)
    as (w' & Hthrows & _).
  congruence.
Qed.

(** One PDF file that cannot be parsed makes the whole run of the cloud
    pipeline fail, whatever the other files are and whatever the embedding
    service does: the cloud pipeline does not skip it. *)
Theorem cloud_parse_error_fails_the_run (env : Ingestion.Env) (w : World)
    (listing : list string) (fileName parserError : string) (res : IngestResult) :
  listingOf (Cloud env) = Returns listing →
  fileName ∈ listing →
  endsWith fileName ".pdf" = true →
  Ingestion.loadPDF env
    (Ingestion.path_join env (Ingestion.DOCUMENTS_DIR env) fileName)
  = Ingestion.pdfParser_dataError parserError →
  (ingest (Cloud env) w).1 = Returns res →
  success res = false ∧ count res = 0.
Proof.
  intros Hlisting Hin Hpdf Herror Hrun.
  destruct (success res) eqn:Hok;
    [|split; [done|by apply (ingest_failure_count (Cloud env) w)]].
  exfalso. revert Hrun Hok. simpl in *.
  unfold Ingestion.ingestDocuments, Ingestion.getOrCreateCollection.
  io_unfold. simpl.
  destruct (Ingestion.chroma_getOrCreateCollection _ _) as [[]|msg]; simpl;
    [|by intros [= <-]].
  rewrite Hlisting. simpl. fold (pdfFiles listing).
  destruct (decide (length (pdfFiles listing) = 0)); simpl; [by intros [= <-]|].
  assert (fileName ∈ pdfFiles listing) as Hfile.
  { unfold pdfFiles. by apply list_elem_of_filter. }
  match goal with
  | |- context [Ingestion.ingestLoop env _ 0 ?w1] =>
      destruct (cloud_parse_error_ends_loop env fileName parserError
                  (pdfFiles listing) 0 w1 Hfile Herror)
        as (message & w' & ->)
  end.
  simpl. by intros [= <-].
Qed.

Lemma cloud_parse_error_fails_the_run_witness :
  let res := {| success := false; count := 0;
                error := Some "PDF parsing error: Invalid PDF structure" |} in
  success res = false ∧ count res = 0.
Proof.
  apply (cloud_parse_error_fails_the_run
           (cloudEnv ["a.pdf"; "broken.pdf"] sampleService) emptyWorld
           ["a.pdf"; "broken.pdf"] "broken.pdf" "Invalid PDF structure"
           {| success := false; count := 0;
              error := Some "PDF parsing error: Invalid PDF structure" |}).
  - reflexivity.
  - apply list_elem_of_further, list_elem_of_here.
  - reflexivity.
  - reflexivity.
  - vm_compute. reflexivity.
Defined.

(** ** Row ids and counts of a run *)

(** A row id determines its chunk: chunks of different files, or with
    different indices, never have the same id, also when the file names
    hold dashes and digits themselves. *)
Theorem different_chunks_have_different_row_ids (fileName1 fileName2 : string)
    (i j : nat) :
  fileName1 ≠ fileName2 ∨ i ≠ j →
  rowId fileName1 i ≠ rowId fileName2 j.
Proof. intros Hne Heq. apply rowId_eq in Heq as [-> ->]. by destruct Hne. Qed.

Lemma different_chunks_have_different_row_ids_witness :
  rowId "chapter-1" 0 ≠ rowId "chapter" 10.
Proof.
  apply (different_chunks_have_different_row_ids "chapter-1" "chapter" 0 10).
  left. discriminate.
Defined.

(** No row id is sent twice during a run, within a request or across
    requests, when the directory lists every name once: no chunk of a run
    overwrites another chunk of the same run. *)
Theorem run_row_ids_are_distinct (p : Pipeline) (w : World) :
  (∀ listing, listingOf p = Returns listing → NoDup listing) →
  NoDup (concat (map ids (drop (length (upserts w)) (upserts (ingest p w).2)))).
Proof.
  intros Hlisting.
  destruct (ingest_requests_NoDup p w Hlisting) as (res & reqs & _ & Hu & _ & Hnd).
  by rewrite Hu, drop_app_length.
Qed.

Lemma run_row_ids_are_distinct_witness :
  let p := Cloud (cloudEnv ["a.pdf"; "b.pdf"] sampleService) in
  NoDup (concat (map ids (drop 0 (upserts (ingest p emptyWorld).2)))).
Proof.
  apply (run_row_ids_are_distinct
           (Cloud (cloudEnv ["a.pdf"; "b.pdf"] sampleService)) emptyWorld).
  apply (sample_listing_NoDup ["a.pdf"; "b.pdf"]); reflexivity.
Defined.

Lemma idsOf_total docs : sum_list_with length (idsOf docs) = chunkTotal docs.
Proof.
  unfold idsOf, chunkTotal. induction docs as [|doc docs IH]; simpl; [done|].
  by rewrite length_map, length_seq, IH.
Qed.

Lemma sum_list_with_map {A B} (f : A → B) (g : B → nat) (l : list A) :
  sum_list_with g (map f l) = sum_list_with (λ x, g (f x)) l.
Proof. induction l as [|x l IH]; simpl; [done|]. by rewrite IH. Qed.

Lemma concat_length {A} (ls : list (list A)) :
  length (concat ls) = sum_list_with length ls.
Proof. induction ls as [|l ls IH]; simpl; [done|]. by rewrite length_app, IH. Qed.

(** The requests of a successful run: all accepted, without a repeated
    id, and with as many ids, and as many documents, as the run counts. *)
Lemma ingest_success_requests p w res :
  (ingest p w).1 = Returns res → success res = true →
  ∃ reqs,
    upserts (ingest p w).2 = upserts w ++ reqs ∧
    collection (ingest p w).2 = stored (rejectsOf p) reqs (collection w) ∧
    Forall (λ req, rejectsOf p req = None) reqs ∧
    sum_list_with (λ req, length (ids req)) reqs = count res ∧
    sum_list_with (λ req, length (documents req)) reqs = count res.
Proof.
  intros Hrun Hok.
  destruct (ingest_success p w res Hrun Hok)
    as (listing & reqs & _ & Hu & Hc & Hacc & Hids & Hcount).
  exists reqs. repeat (split; [done|]).
  assert (sum_list_with (λ req, length (ids req)) reqs = count res) as Hsum.
  { by rewrite <- (sum_list_with_map ids length), Hids, idsOf_total. }
  split; [done|]. rewrite <- Hsum.
  destruct (ingest_requests p w) as (_ & reqs' & _ & Hu' & _ & Hbuilt).
  rewrite Hu in Hu'. apply (inj (app (upserts w))) in Hu' as <-.
  clear -Hbuilt. induction Hbuilt as [|req reqs [f Hreq] _ IH]; simpl; [done|].
  apply requestFor_ids_documents_metadatas in Hreq as [-> _]. by rewrite IH.
Qed.

(** The count of a successful run is the number of chunks it sent to the
    store: the documents of its upsert requests, all of which the store
    accepted.  Skipped documents count for nothing. *)
Theorem count_is_the_number_of_chunks_sent (p : Pipeline) (w : World)
    (res : IngestResult) :
  (ingest p w).1 = Returns res →
  success res = true →
  count res
  = sum_list_with (λ req, length (documents req))
      (drop (length (upserts w)) (upserts (ingest p w).2)) ∧
  Forall (λ req, rejectsOf p req = None)
    (drop (length (upserts w)) (upserts (ingest p w).2)).
Proof.
  intros Hrun Hok.
  destruct (ingest_success_requests p w res Hrun Hok)
    as (reqs & Hu & _ & Hacc & _ & Hdocs).
  by rewrite Hu, drop_app_length.
Qed.

Lemma count_is_the_number_of_chunks_sent_witness :
  let p := Local (localEnv ["empty.pdf"; "a.pdf"; "b.pdf"] sampleTensor) in
  4 = sum_list_with (λ req, length (documents req))
        (drop 0 (upserts (ingest p emptyWorld).2)) ∧
  Forall (λ req, rejectsOf p req = None)
    (drop 0 (upserts (ingest p emptyWorld).2)).
Proof.
  apply (count_is_the_number_of_chunks_sent
           (Local (localEnv ["empty.pdf"; "a.pdf"; "b.pdf"] sampleTensor)) emptyWorld
           {| success := true; count := 4; error := None |}).
  - vm_compute. reflexivity.
  - reflexivity.
Defined.

(** A successful run adds at most [count] rows to the collection, and
    into an empty collection it puts exactly [count] rows.  The directory
    is taken to list every name once. *)
Theorem successful_run_adds_count_rows (p : Pipeline) (w : World) (res : IngestResult) :
  (∀ listing, listingOf p = Returns listing → NoDup listing) →
  (ingest p w).1 = Returns res →
  success res = true →
  size (collection (ingest p w).2) ≤ size (collection w) + count res ∧
  (collection w = ∅ → size (collection (ingest p w).2) = count res).
Proof.
  intros Hlisting Hrun Hok.
  destruct (ingest_success_requests p w res Hrun Hok)
    as (reqs & Hu & Hc & Hacc & Hids & _).
  destruct (ingest_requests_NoDup p w Hlisting) as (_ & reqs' & _ & Hu' & _ & Hnd).
  rewrite Hu in Hu'. apply (inj (app (upserts w))) in Hu' as <-.
  assert (size (list_to_set (C := gset string) (concat (map ids reqs))) = count res)
    as Hsize.
  { rewrite size_list_to_set by done.
    by rewrite concat_length, (sum_list_with_map ids length). }
  rewrite <- !size_dom, Hc, stored_dom_accepted by done. split.
  - rewrite size_union_alt, Hsize.
    assert (size (dom (collection w) ∖ list_to_set (concat (map ids reqs)))
            ≤ size (dom (collection w))) by (apply subseteq_size; set_solver).
    lia.
  - intros ->. by rewrite dom_empty_L, (right_id_L ∅ (∪)).
Qed.

Lemma successful_run_adds_count_rows_witness :
  let p := Cloud (cloudEnv ["a.pdf"; "b.pdf"] sampleService) in
  size (collection (ingest p emptyWorld).2) ≤ size (collection emptyWorld) + 4 ∧
  (collection emptyWorld = ∅ → size (collection (ingest p emptyWorld).2) = 4).
Proof.
  apply (successful_run_adds_count_rows
           (Cloud (cloudEnv ["a.pdf"; "b.pdf"] sampleService)) emptyWorld
           {| success := true; count := 4; error := None |}).
  - apply (sample_listing_NoDup ["a.pdf"; "b.pdf"]); reflexivity.
  - vm_compute. reflexivity.
  - reflexivity.
Defined.

(** ** More of the chat route *)

(** Every value of [query] that JavaScript takes for false is answered
    like a missing one: [null], [false], [0] and the empty string give
    status 400, and the handler does nothing else. *)
Theorem falsy_query_is_a_client_error
    (runRAGChatXenova : ChatRoute.JSON → Outcome ChatRoute.Stream)
    (template : ChatRoute.JSON → string)
    (value query : ChatRoute.JSON) :
  ChatRoute.destructure_query value = Returns (Some query) →
  ChatRoute.falsy query = true →
  ChatRoute.POST runRAGChatXenova template (Returns value)
  = ({| ChatRoute.status := 400;
        ChatRoute.headers := [];
        ChatRoute.body :=
          ChatRoute.JsonBody [("error", "Missing query parameter in request body.")] |},
     []).
Proof.
  intros Hquery Hfalsy. unfold ChatRoute.POST. by rewrite Hquery, Hfalsy.
Qed.

Lemma falsy_query_is_a_client_error_witness :
  ChatRoute.POST (λ _, Returns ["answer"]) (λ _, "query")
    (Returns (ChatRoute.JObject [("query", ChatRoute.JNumber 0)]))
  = ({| ChatRoute.status := 400;
        ChatRoute.headers := [];
        ChatRoute.body :=
          ChatRoute.JsonBody [("error", "Missing query parameter in request body.")] |},
     []).
Proof.
  apply (falsy_query_is_a_client_error _ _ _ (ChatRoute.JNumber 0)).
  - reflexivity.
  - reflexivity.
Defined.





(** The handler calls [runRAGChatXenova] at most once, and a status 200
    always comes from one call, with a query that is not falsy, that
    returned the stream of the body. *)
Theorem chat_status_200_means_one_call
    (runRAGChatXenova : ChatRoute.JSON → Outcome ChatRoute.Stream)
    (template : ChatRoute.JSON → string)
    (req_json : Outcome ChatRoute.JSON) :
  let answer := ChatRoute.POST runRAGChatXenova template req_json in
  length (callsOf answer.2) ≤ 1 ∧
  (ChatRoute.status answer.1 = 200 →
   ∃ query stream,
     callsOf answer.2 = [query] ∧
     ChatRoute.falsy query = false ∧
     runRAGChatXenova query = Returns stream ∧
     ChatRoute.body answer.1 = ChatRoute.StreamBody stream).
Proof.
  unfold ChatRoute.POST, ChatRoute.serverError, ChatRoute.missingQuery.
  destruct req_json as [value|?]; simpl; [|split; [lia|done]].
  destruct (ChatRoute.destructure_query value) as [[q|]|?]; simpl;
    [|split; [lia|done]..].
  destruct (ChatRoute.falsy q) eqn:Hq; simpl; [split; [lia|done]|].
  destruct (runRAGChatXenova q) as [stream|?] eqn:Hrun; simpl;
    (split; [lia|]); [|done].
  intros _. by exists q, stream.
Qed.

(** A body that cannot be read is no client error: when [req.json()]
    rejects, or the body is [null] so that destructuring it throws, the
    answer has status 500 with the message as its [details], and
    [runRAGChatXenova] is not called. *)
Theorem chat_unreadable_body_is_a_server_error
    (runRAGChatXenova : ChatRoute.JSON → Outcome ChatRoute.Stream)
    (template : ChatRoute.JSON → string)
    (req_json : Outcome ChatRoute.JSON) (message : string) :
  req_json = Throws message
  ∨ (∃ value, req_json = Returns value ∧
              ChatRoute.destructure_query value = Throws message) →
  let answer := ChatRoute.POST runRAGChatXenova template req_json in
  answer.1
  = {| ChatRoute.status := 500;
       ChatRoute.headers := [];
       ChatRoute.body :=
         ChatRoute.JsonBody
           [("error", "An error occurred during Xenova RAG processing.");
            ("details", message)] |} ∧
  callsOf answer.2 = [].
Proof.
  unfold ChatRoute.POST, ChatRoute.serverError.
  intros [-> | (value & -> & Hvalue)]; simpl; [done|]. by rewrite Hvalue.
Qed.

Lemma chat_unreadable_body_is_a_server_error_witness :
  let answer :=
    ChatRoute.POST (λ _, Returns ["answer"]) (λ _, "query") (Returns ChatRoute.JNull) in
  answer.1
  = {| ChatRoute.status := 500;
       ChatRoute.headers := [];
       ChatRoute.body :=
         ChatRoute.JsonBody
           [("error", "An error occurred during Xenova RAG processing.");
            ("details", "Cannot destructure property 'query' of null.")] |} ∧
  callsOf answer.2 = [].
Proof.
  apply (chat_unreadable_body_is_a_server_error
           (λ _, Returns ["answer"]) (λ _, "query") (Returns ChatRoute.JNull)
           "Cannot destructure property 'query' of null.").
  right. exists ChatRoute.JNull. split; reflexivity.
Defined.

(** ** The document that ends a run *)

(** An iteration that throws has not had a request accepted. *)
Lemma cloud_ingestFile_throws env fileName n w message w' :
  Ingestion.ingestFile env fileName n w = (Throws message, w') →
  ∃ reqs, upserts w' = upserts w ++ reqs ∧
          Forall (λ req, Ingestion.chroma_rejects env req ≠ None) reqs.
Proof.
  unfold Ingestion.ingestFile, Ingestion.extractTextFromPdf, Ingestion.chunkText.
  io_unfold. simpl.
  destruct (Ingestion.loadPDF _ _) as [pdfData|parserError]; simpl.
  2:{ intros [= <- <-]. exists []. by rewrite app_nil_r. }
  match goal with
  | |- context [Ingestion.generateEmbeddings env ?chunks ?w1] =>
      destruct (Ingestion.generateEmbeddings env chunks w1) as [[embs|msg] w2] eqn:He
  end.
  2:{ apply cloud_generateEmbeddings_throws in He as [_ Hu]. simpl in *.
      intros [= <- <-]. exists []. by rewrite app_nil_r. }
  apply cloud_generateEmbeddings_returns in He as (_ & Hu & _). simpl in *.
  match goal with
  | |- context [Ingestion.chroma_rejects env ?req] =>
      destruct (Ingestion.chroma_rejects env req) as [msg|] eqn:Hrej; simpl;
        intros [= <- <-]; exists [req]
  end.
  simpl. rewrite Hu. split; [done|]. apply Forall_singleton. by rewrite Hrej.
Qed.

Lemma local_ingestFile_throws env fileName n w message w' :
  IngestionXenova.ingestFile env fileName n w = (Throws message, w') →
  ∃ reqs, upserts w' = upserts w ++ reqs ∧
          Forall (λ req, IngestionXenova.chroma_rejects env req ≠ None) reqs.
Proof.
  unfold IngestionXenova.ingestFile. io_unfold. simpl.
  match goal with
  | |- context [IngestionXenova.extractTextFromPdf env ?path ?w0] =>
      destruct (IngestionXenova.extractTextFromPdf env path w0)
        as [[fullText|msg] w2] eqn:Hx
  end; apply local_extractText_spec in Hx as (_ & Hu & _); simpl in *; [|done].
  destruct (decide (String.length fullText = 0)); simpl; [done|].
  destruct (decide (length _ = 0)); simpl; [done|].
  match goal with
  | |- context [IngestionXenova.generateEmbeddingsXenova env ?chunks ?w1] =>
      destruct (IngestionXenova.generateEmbeddingsXenova env chunks w1)
        as [[embs|msg] w3] eqn:He
  end.
  2:{ apply local_generateEmbeddings_throws in He as [_ Hu3]. simpl in *.
      intros [= <- <-]. exists []. rewrite app_nil_r. split; [congruence|done]. }
  apply local_generateEmbeddings_returns in He as (_ & Hu3 & _). simpl in *.
  match goal with
  | |- context [IngestionXenova.chroma_rejects env ?req] =>
      destruct (IngestionXenova.chroma_rejects env req) as [msg|] eqn:Hrej; simpl;
        intros [= <- <-]; exists [req]
  end.
  simpl. rewrite Hu3, Hu. split; [done|]. apply Forall_singleton. by rewrite Hrej.
Qed.

(** A loop that throws went through the files before the failing one as
    a loop that returns, and had nothing accepted for the failing one. *)
Lemma cloud_loop_throws env files n w message w' :
  Ingestion.ingestLoop env files n w = (Throws message, w') →
  ∃ done failing rest reqs1 reqs2,
    files = done ++ failing :: rest ∧
    upserts w' = upserts w ++ reqs1 ++ reqs2 ∧
    Forall (λ req, Ingestion.chroma_rejects env req = None) reqs1 ∧
    map ids reqs1 = idsOf (Ingestion.planned env done) ∧
    Forall (λ req, Ingestion.chroma_rejects env req ≠ None) reqs2.
Proof.
  revert n w. induction files as [|fileName files IH]; intros n w.
  - simpl. io_unfold. done.
  - cbn [Ingestion.ingestLoop]. unfold mbind, IO_bind.
    destruct (Ingestion.ingestFile env fileName n w) as [[m|msg] w1] eqn:Hfile.
    + apply cloud_ingestFile_ran in Hfile as (reqs & (Hu1 & _ & Hacc & Hids & _) & _).
      intros Hloop.
      apply IH in Hloop
        as (done & failing & rest & reqs1 & reqs2 & -> & Hu & Hacc1 & Hids1 & Hrej).
      exists (fileName :: done), failing, rest, (reqs ++ reqs1), reqs2.
      split; [done|]. split; [by rewrite Hu, Hu1, <- !app_assoc|].
      split; [by apply Forall_app|]. split; [|done].
      rewrite cloud_planned_cons. unfold idsOf in *.
      by rewrite !map_app, Hids, Hids1.
    + intros [= <- <-].
      apply cloud_ingestFile_throws in Hfile as (reqs2 & Hu & Hrej).
      by exists [], fileName, files, [], reqs2.
Qed.

Lemma local_loop_throws env files n w message w' :
  IngestionXenova.ingestLoop env files n w = (Throws message, w') →
  ∃ done failing rest reqs1 reqs2,
    files = done ++ failing :: rest ∧
    upserts w' = upserts w ++ reqs1 ++ reqs2 ∧
    Forall (λ req, IngestionXenova.chroma_rejects env req = None) reqs1 ∧
    map ids reqs1 = idsOf (IngestionXenova.planned env done) ∧
    Forall (λ req, IngestionXenova.chroma_rejects env req ≠ None) reqs2.
Proof.
  revert n w. induction files as [|fileName files IH]; intros n w.
  - simpl. io_unfold. done.
  - cbn [IngestionXenova.ingestLoop]. unfold mbind, IO_bind.
    destruct (IngestionXenova.ingestFile env fileName n w) as [[m|msg] w1] eqn:Hfile.
    + apply local_ingestFile_ran in Hfile as (reqs & (Hu1 & _ & Hacc & Hids & _) & _).
      intros Hloop.
      apply IH in Hloop
        as (done & failing & rest & reqs1 & reqs2 & -> & Hu & Hacc1 & Hids1 & Hrej).
      exists (fileName :: done), failing, rest, (reqs ++ reqs1), reqs2.
      split; [done|]. split; [by rewrite Hu, Hu1, <- !app_assoc|].
      split; [by apply Forall_app|]. split; [|done].
      rewrite local_planned_cons. unfold idsOf in *.
      by rewrite !map_app, Hids, Hids1.
    + intros [= <- <-].
      apply local_ingestFile_throws in Hfile as (reqs2 & Hu & Hrej).
      by exists [], fileName, files, [], reqs2.
Qed.

Lemma failed_loop_requests p w listing res :
  connectionOf p = Returns () →
  listingOf p = Returns listing →
  pdfFiles listing ≠ [] →
  (ingest p w).1 = Returns res →
  success res = false →
  ∃ done failing rest reqs1 reqs2,
    pdfFiles listing = done ++ failing :: rest ∧
    upserts (ingest p w).2 = upserts w ++ reqs1 ++ reqs2 ∧
    Forall (λ req, rejectsOf p req = None) reqs1 ∧
    map ids reqs1 = idsOf (plannedOf p done) ∧
    Forall (λ req, rejectsOf p req ≠ None) reqs2.
Proof.
  intros Hconn Hlist Hsome. destruct p as [env|env]; simpl in *.
  - destruct (Ingestion.ingestDocuments env w) as [r w'] eqn:Hrun. simpl.
    intros -> Hfail. revert Hrun.
    unfold Ingestion.ingestDocuments, Ingestion.getOrCreateCollection.
    io_unfold. simpl. rewrite Hconn, Hlist. simpl. fold (pdfFiles listing).
    rewrite decide_False by (by destruct (pdfFiles listing)). simpl.
    match goal with
    | |- context [Ingestion.ingestLoop env _ 0 ?w1] =>
        destruct (Ingestion.ingestLoop env (pdfFiles listing) 0 w1)
          as [[m|msg] w2] eqn:Hloop
    end; simpl; intros [= <- <-]; [done|].
    apply cloud_loop_throws in Hloop
      as (done & failing & rest & reqs1 & reqs2 & Hfiles & Hu & Hrest).
    by exists done, failing, rest, reqs1, reqs2.
  - destruct (IngestionXenova.ingestDocumentsXenova env w) as [r w'] eqn:Hrun. simpl.
    intros -> Hfail. revert Hrun.
    unfold IngestionXenova.ingestDocumentsXenova, IngestionXenova.getOrCreateCollection.
    io_unfold. simpl. rewrite Hconn, Hlist. simpl. fold (pdfFiles listing).
    rewrite decide_False by (by destruct (pdfFiles listing)). simpl.
    match goal with
    | |- context [IngestionXenova.ingestLoop env _ 0 ?w1] =>
        destruct (IngestionXenova.ingestLoop env (pdfFiles listing) 0 w1)
          as [[m|msg] w2] eqn:Hloop
    end; simpl; intros [= <- <-]; [done|].
    apply local_loop_throws in Hloop
      as (done & failing & rest & reqs1 & reqs2 & Hfiles & Hu & Hrest).
    exists done, failing, rest, reqs1, reqs2. by destruct (extractor w2).
Qed.

(** A run stops at the first document that throws: when a run over a
    directory with PDF files fails, the PDF files split into those before
    the failing one, the failing one, and the rest; the requests the store
    accepted are those of the documents before the failing one, one for
    each that is not skipped, in order.  Nothing is stored for the failing
    document or for the files after it. *)
Theorem failed_run_stops_at_the_failing_document (p : Pipeline) (w : World)
    (listing : list string) (res : IngestResult) :
  connectionOf p = Returns () →
  listingOf p = Returns listing →
  pdfFiles listing ≠ [] →
  (ingest p w).1 = Returns res →
  success res = false →
  ∃ done failing rest,
    pdfFiles listing = done ++ failing :: rest ∧
    map ids (filter (λ req, rejectsOf p req = None)
               (drop (length (upserts w)) (upserts (ingest p w).2)))
    = map (λ doc, map (λ i, doc.1 +:+ "-" +:+ pretty i) (seq 0 (length doc.2)))
          (plannedOf p done).
Proof.
  intros Hconn Hlist Hsome Hrun Hfail.
  destruct (failed_loop_requests p w listing res Hconn Hlist Hsome Hrun Hfail)
    as (done & failing & rest & reqs1 & reqs2 & Hfiles & Hu & Hacc & Hids & Hrej).
  exists done, failing, rest. split; [done|].
  rewrite Hu, drop_app_length, filter_app.
  assert (filter (λ req, rejectsOf p req = None) reqs1 = reqs1) as ->.
  { clear -Hacc. induction Hacc as [|req reqs Hreq _ IH]; [done|].
    by rewrite filter_cons, decide_True, IH by done. }
  assert (filter (λ req, rejectsOf p req = None) reqs2 = []) as ->.
  { clear -Hrej. induction Hrej as [|req reqs Hreq _ IH]; [done|].
    by rewrite filter_cons, decide_False, IH by done. }
  by rewrite app_nil_r.
Qed.

Lemma failed_run_stops_at_the_failing_document_witness :
  let p := Cloud (cloudEnv ["a.pdf"; "b.pdf"; "empty.pdf"] failingService) in
  ∃ done failing rest,
    pdfFiles ["a.pdf"; "b.pdf"; "empty.pdf"] = done ++ failing :: rest ∧
    map ids (filter (λ req, rejectsOf p req = None)
               (drop (length (upserts emptyWorld)) (upserts (ingest p emptyWorld).2)))
    = map (λ doc, map (λ i, doc.1 +:+ "-" +:+ pretty i) (seq 0 (length doc.2)))
          (plannedOf p done).
Proof.
  apply (failed_run_stops_at_the_failing_document
           (Cloud (cloudEnv ["a.pdf"; "b.pdf"; "empty.pdf"] failingService)) emptyWorld
           ["a.pdf"; "b.pdf"; "empty.pdf"]
           {| success := false; count := 0; error := Some "429 Too Many Requests" |}).
  - reflexivity.
  - reflexivity.
  - vm_compute. discriminate.
  - vm_compute. reflexivity.
  - reflexivity.
Defined.
